(** * ShuffleChannels executor of the intel_cpu plugin

    A shallow embedding of
    [src/plugins/intel_cpu/src/nodes/mkldnn_shuffle_channels_node.cpp]:
    the attribute bundle, the constructor of [ShuffleChannelsExecutor] that
    derives the permutation parameters handed to the permute kernel, the
    [exec] entry point and the node around them: its constructor with the
    axis normalisation, the primitive descriptors it asks for,
    [createPrimitive], [prepareParams] and [execute].  The permute kernel
    itself is not part of this source file; it is modelled from section 4.3
    of the specification.

    Conventions.
    - [int] values ([axis], [dataRank], [spatialRank], loop counters) are
      integers of [Z]; the ranks involved are tiny, signed overflow does not
      arise.
    - [size_t] values (extents, [group], [dataSize]) are integers of [Z] in
      the range [0, 2^64); products computed by the code wrap modulo 2^64.
    - [std::vector<size_t>] is [list Z].  [operator[]] outside the vector,
      [back()] on an empty vector and division by zero are undefined
      behaviour in C++; the embedding makes them the explicit outcome
      [Undefined], a thrown exception is the outcome [Throws]. *)

From Stdlib Require Import ZArith Lia.
From Stdlib.Strings Require Import String Byte.
From stdpp Require Import base tactics option list.

Local Open Scope Z_scope.

(** ** Outcomes: a value, an exception, or undefined behaviour *)

Inductive outcome (A : Type) : Type :=
  | Ok (a : A)
  | Throws (what : string)
  | Undefined.
Arguments Ok {A} a.
Arguments Throws {A} what.
Arguments Undefined {A}.

#[export] Instance outcome_ret : MRet outcome := fun A a => Ok a.
#[export] Instance outcome_bind : MBind outcome := fun A B f m =>
  match m with
  | Ok a => f a
  | Throws w => Throws w
  | Undefined => Undefined
  end.

Fixpoint foldM {T A : Type} (body : A -> T -> outcome T) (l : list A) (s : T)
  : outcome T :=
  match l with
  | [] => Ok s
  | i :: l' => s' ← body i s; foldM body l' s'
  end.

(** [for (int i = lo; i < hi; i++) body] *)
Definition for_loop {T : Type} (lo hi : Z) (body : Z -> T -> outcome T) (s : T)
  : outcome T :=
  foldM body (seqZ lo (hi - lo)) s.

(** ** Machine arithmetic *)

Definition size_t_modulus : Z := 2 ^ 64.

(** [a * b] on [size_t] *)
Definition size_t_mul (a b : Z) : Z := (a * b) mod size_t_modulus.

(** [a / b] on [size_t] *)
Definition size_t_div (a b : Z) : outcome Z :=
  if decide (b = 0) then Undefined else Ok (a / b).

(** [static_cast<int>(b)] *)
Definition int_of_bool (b : bool) : Z := if b then 1 else 0.

(** ** Vectors *)

(** [v[i]] read; the index is converted to [size_t], a negative [int] becomes
    a huge index. *)
Definition vec_get (v : list Z) (i : Z) : outcome Z :=
  if decide (0 <= i) then
    match v !! Z.to_nat i with
    | Some x => Ok x
    | None => Undefined
    end
  else Undefined.

(** [v[i] = x] *)
Definition vec_set (v : list Z) (i : Z) (x : Z) : outcome (list Z) :=
  if decide (0 <= i < Z.of_nat (length v)) then Ok (<[Z.to_nat i := x]> v)
  else Undefined.

(** [v.back()] *)
Definition vec_back (v : list Z) : outcome Z :=
  match last v with
  | Some x => Ok x
  | None => Undefined
  end.

(** [v.resize(n, x)] on a fresh vector; a negative [int] count converts to a
    [size_t] beyond [max_size()] and [resize] throws. *)
Definition vec_resize (n : Z) (x : Z) : outcome (list Z) :=
  if decide (0 <= n) then Ok (replicate (Z.to_nat n) x)
  else Throws "vector::resize".

(** ** Data model *)

(** [LayoutType] is an [enum class] over [unsigned].  Its four enumerators are
    the layouts the plugin knows; [otherLayout] stands for an object of the
    enumeration type holding no enumerator, the only kind of value the guard
    at the head of the executor constructor rejects. *)
Inductive LayoutType : Type :=
  | nspc
  | ncsp
  | nCsp8c
  | nCsp16c
  | otherLayout (tag : Z).

#[export] Instance LayoutType_eq_dec : EqDecision LayoutType.
Proof. solve_decision. Defined.

(** [one_of(val, items...)] of [utils/general_utils.h]: [val == item] for
    some item. *)
Fixpoint one_of {A : Type} `{EqDecision A} (val : A) (items : list A) : bool :=
  match items with
  | [] => false
  | item :: item_others => bool_decide (val = item) || one_of val item_others
  end.

Record ShuffleChannelsAttributes : Type := mkAttrs {
  layoutType : LayoutType;
  dataRank : Z;
  axis : Z;
  spatialRank : Z;
  group : Z;
  dataSize : Z;
  srcDims : list Z;
  srcBlockedDims : list Z
}.

Record PermuteParams : Type := mkParams {
  src_block_dims : list Z;
  dst_block_dims : list Z;
  src_block_order : list Z;
  dst_block_order : list Z;
  order : list Z;
  data_size : Z
}.

Definition with_order (o : list Z) (p : PermuteParams) : PermuteParams :=
  mkParams (src_block_dims p) (dst_block_dims p) (src_block_order p)
           (dst_block_order p) o (data_size p).

Definition with_src_block_dims (d : list Z) (p : PermuteParams) : PermuteParams :=
  mkParams d (dst_block_dims p) (src_block_order p)
           (dst_block_order p) (order p) (data_size p).

Definition with_dst_block_dims (d : list Z) (p : PermuteParams) : PermuteParams :=
  mkParams (src_block_dims p) d (src_block_order p)
           (dst_block_order p) (order p) (data_size p).

(** [params.order[i] = x] *)
Definition set_order (i x : Z) (p : PermuteParams) : outcome PermuteParams :=
  o ← vec_set (order p) i x; Ok (with_order o p).

(** [params.src_block_dims[i] = x] *)
Definition set_src_block_dims (i x : Z) (p : PermuteParams) : outcome PermuteParams :=
  d ← vec_set (src_block_dims p) i x; Ok (with_src_block_dims d p).

(** [params.dst_block_dims[i] = x] *)
Definition set_dst_block_dims (i x : Z) (p : PermuteParams) : outcome PermuteParams :=
  d ← vec_set (dst_block_dims p) i x; Ok (with_dst_block_dims d p).

(** The permute kernel keeps the parameters it was compiled from. *)
Record PermuteKernel : Type := mkKernel { jcp : PermuteParams }.

(** [permuteKernel] is a [unique_ptr]: empty until the constructor fills it. *)
Record ShuffleChannelsExecutor : Type := mkExecutor {
  permuteKernel : option PermuteKernel
}.

(** [ShuffleChannelsAttributes::operator==]: all eight fields, the two
    dimension vectors included. *)
Definition attrs_equal (a b : ShuffleChannelsAttributes) : bool :=
  bool_decide (layoutType a = layoutType b) && bool_decide (dataRank a = dataRank b)
  && bool_decide (axis a = axis b) && bool_decide (spatialRank a = spatialRank b)
  && bool_decide (group a = group b) && bool_decide (dataSize a = dataSize b)
  && bool_decide (srcDims a = srcDims b)
  && bool_decide (srcBlockedDims a = srcBlockedDims b).

(** ** The executor constructor *)

Definition isBlockedLayout (l : LayoutType) : bool := one_of l [nCsp16c; nCsp8c].
Definition isChannelsLastLayout (l : LayoutType) : bool := bool_decide (l = nspc).

(** [batchRank + 2 + int(spatialRank != 0) + int(isBlocked && spatialRank == 0)] *)
Definition reshapedRank (attrs : ShuffleChannelsAttributes) : Z :=
  axis attrs + 2
  + int_of_bool (negb (bool_decide (spatialRank attrs = 0)))
  + int_of_bool (isBlockedLayout (layoutType attrs)
                 && bool_decide (spatialRank attrs = 0)).

(** The lambda [decomposeAndTranpose]; [group] and [groupSize] are captured by
    reference in the source. *)
Definition decomposeAndTranpose (attrs : ShuffleChannelsAttributes) (groupSize : Z)
    (ax : Z) (params : PermuteParams) : outcome PermuteParams :=
  p ← set_src_block_dims ax (group attrs) params;
  p ← set_src_block_dims (ax + 1) groupSize p;
  p ← set_order ax (ax + 1) p;
  set_order (ax + 1) ax p.

(** [for (int i = lo; i < hi; i++) acc *= srcDims[i];] *)
Definition mul_dims (dims : list Z) (lo hi : Z) (acc : Z) : outcome Z :=
  for_loop lo hi (fun i acc => d ← vec_get dims i; Ok (size_t_mul acc d)) acc.

Definition channelDim : Z := 1.

Definition unsupported_layout_message : string :=
  "ShuffleChannels executor supports only 'nCsp16c', 'nCsp8c', 'nspc' or 'ncsp' layouts.".

Definition buildParams (attrs : ShuffleChannelsAttributes) : outcome PermuteParams :=
  if negb (one_of (layoutType attrs) [nCsp16c; nCsp8c; nspc; ncsp])
  then Throws unsupported_layout_message
  else
  let isBlocked := isBlockedLayout (layoutType attrs) in
  let isChannelsLast := isChannelsLastLayout (layoutType attrs) in
  let batchRank := axis attrs in
  let rRank := reshapedRank attrs in
  order0 ← vec_resize rRank 0;
  src_block_order0 ← vec_resize rRank 0;
  dst_block_order0 ← vec_resize rRank 0;
  dst_block_dims0 ← vec_resize rRank 0;
  src_block_dims0 ← vec_resize rRank 0;
  let params := mkParams src_block_dims0 dst_block_dims0 src_block_order0
                         dst_block_order0 order0 (dataSize attrs) in
  extent ← vec_get (srcDims attrs) (axis attrs);
  groupSize ← size_t_div extent (group attrs);
  spatialShapeSize ←
    (if bool_decide (spatialRank attrs = 0) then Ok 1
     else mul_dims (srcDims attrs) (batchRank + 1) (dataRank attrs) 1);
  params ←
    (if isBlocked then
       blkSize ← vec_back (srcBlockedDims attrs);
       CB ← vec_get (srcBlockedDims attrs) 1;
       if decide (axis attrs > channelDim) then
         p ← for_loop 0 batchRank (fun i p =>
                p ← set_order i i p;
                d ← vec_get (srcBlockedDims attrs) i;
                set_src_block_dims i d p) params;
         p ← decomposeAndTranpose attrs groupSize batchRank p;
         p ← set_order (batchRank + 2) (batchRank + 2) p;
         set_src_block_dims (batchRank + 2) (size_t_mul spatialShapeSize blkSize) p
       else
         p ← decomposeAndTranpose attrs groupSize 0 params;
         spatialShapeSize ← mul_dims (srcDims attrs) 2 (dataRank attrs)
                                     (size_t_mul CB blkSize);
         p ← set_order 2 2 p;
         set_src_block_dims 2 spatialShapeSize p
     else if isChannelsLast then
       if decide (axis attrs = channelDim) then
         p ← set_order 0 0 params;
         d ← vec_get (srcDims attrs) 0;
         p ← set_src_block_dims 0 d p;
         p ← set_order 1 1 p;
         p ← set_src_block_dims 1 spatialShapeSize p;
         decomposeAndTranpose attrs groupSize 2 p
       else if decide (axis attrs > channelDim) then
         p ← for_loop 0 batchRank (fun i p =>
                if decide (i = 0) then
                  p ← set_order i i p;
                  d ← vec_get (srcDims attrs) i;
                  set_src_block_dims i d p
                else if decide (i = 1) then
                  p ← set_order (rRank - 1) (rRank - 1) p;
                  o ← vec_get (order p) (rRank - 1);
                  d ← vec_get (srcDims attrs) i;
                  set_src_block_dims o d p
                else if decide (i > 1) then
                  p ← set_order (i - 1) (i - 1) p;
                  d ← vec_get (srcDims attrs) i;
                  set_src_block_dims (i - 1) d p
                else Ok p) params;
         p ← decomposeAndTranpose attrs groupSize (batchRank - 1) p;
         if bool_decide (spatialRank attrs = 0) then Ok p
         else
           p ← set_order (batchRank + 1) (batchRank + 1) p;
           set_src_block_dims (batchRank + 1) spatialShapeSize p
       else
         p ← decomposeAndTranpose attrs groupSize 0 params;
         p ← set_order 2 2 p;
         set_src_block_dims 2 spatialShapeSize p
     else
       p ← for_loop 0 batchRank (fun i p =>
              d ← vec_get (srcDims attrs) i;
              p ← set_src_block_dims i d p;
              set_order i i p) params;
       p ← decomposeAndTranpose attrs groupSize batchRank p;
       if bool_decide (spatialRank attrs = 0) then Ok p
       else
         p ← set_order (batchRank + 2) (batchRank + 2) p;
         set_src_block_dims (batchRank + 2) spatialShapeSize p);
  let params := mkParams (src_block_dims params) (dst_block_dims params)
                         (seqZ 0 rRank) (seqZ 0 rRank)
                         (order params) (data_size params) in
  for_loop 0 rRank (fun i p =>
    o ← vec_get (order p) i;
    d ← vec_get (src_block_dims p) o;
    set_dst_block_dims i d p) params.

(** [ShuffleChannelsExecutor::ShuffleChannelsExecutor(attrs)] *)
Definition ShuffleChannelsExecutor_new (attrs : ShuffleChannelsAttributes)
  : outcome ShuffleChannelsExecutor :=
  params ← buildParams attrs;
  Ok (mkExecutor (Some (mkKernel params))).

(** The constructor run on [attrs] completes and leaves an executor whose
    kernel was compiled from the parameters [p]. *)
Definition builds (attrs : ShuffleChannelsAttributes) (p : PermuteParams) : Prop :=
  ShuffleChannelsExecutor_new attrs = Ok (mkExecutor (Some (mkKernel p))).

(** ** The permute kernel

    [PermuteKernel] lives in [common/permute_kernel.cpp], outside the source
    tree at hand; its two [execute] entry points are modelled from section 4.3
    of the specification. *)

Definition product (dims : list Z) : Z := foldr Z.mul 1 dims.

(** Modelled from the spec: row-major strides of a block of extents [dims]
    (the block orders of the plan are the identity). *)
Fixpoint strides (dims : list Z) : list Z :=
  match dims with
  | [] => []
  | _ :: ds => product ds :: strides ds
  end.

(** Modelled from the spec: all multi-indices of the box
    [[0,d0) x ... x [0,dn)], in row-major order, that is by increasing linear
    position in a buffer of these extents. *)
Fixpoint multi_indices (dims : list Z) : list (list Z) :=
  match dims with
  | [] => [[]]
  | d :: ds => i ← seqZ 0 d; (cons i) <$> multi_indices ds
  end.

(** Modelled from the spec: linear position of the source element feeding
    destination multi-index [idx].  The source multi-index [j] has
    [j[order[k]] = idx[k]], so coordinate [idx[k]] is weighted by the stride of
    source axis [order[k]]. *)
Definition source_position (p : PermuteParams) (idx : list Z) : Z :=
  foldr Z.add 0
    (zip_with (fun i o => i * default 0 (strides (src_block_dims p) !! Z.to_nat o))
              idx (order p)).

(** Modelled from the spec: the [n] bytes of element number [pos] of a
    buffer. *)
Definition element (n : Z) (buf : list byte) (pos : Z) : list byte :=
  take (Z.to_nat n) (drop (Z.to_nat (pos * n)) buf).

(** Modelled from the spec: [PermuteKernel::execute(src, dst, mb)] is not in
    the source tree.  Section 4.3: for every multi-index [i] of the
    destination block (its axis-0 extent replaced by the batch [mb]), the
    [elementSize] bytes at the source position reached from [i] through
    [order] are copied to destination position [i].  The result is the
    destination buffer, laid out by increasing destination position. *)
Definition PermuteKernel_execute_mb (k : PermuteKernel) (src : list byte) (mb : Z)
  : list byte :=
  let p := jcp k in
  idx ← multi_indices (mb :: tail (dst_block_dims p));
  element (data_size p) src (source_position p idx).

(** Modelled from the spec: [PermuteKernel::execute(src, dst)], the entry
    point without a batch, uses the plan's own axis-0 extent. *)
Definition PermuteKernel_execute (k : PermuteKernel) (src : list byte) : list byte :=
  PermuteKernel_execute_mb k src (default 0 (head (dst_block_dims (jcp k)))).

Definition kernel_not_compiled_message : string :=
  "Could not execute. Kernel for Transpose node was not compiled.".

(** [ShuffleChannelsExecutor::exec(srcData, dstData, MB)]; the value is the
    content of [dstData] afterwards. *)
Definition exec (e : ShuffleChannelsExecutor) (srcData : list byte) (MB : Z)
  : outcome (list byte) :=
  match permuteKernel e with
  | None => Throws kernel_not_compiled_message
  | Some k =>
      if decide (MB > 0) then Ok (PermuteKernel_execute_mb k srcData MB)
      else Ok (PermuteKernel_execute k srcData)
  end.

(** ** The node: attribute set-up *)

(** What [createPrimitive] and [prepareParams] read from the source memory of
    the node. *)
Record MemoryDesc : Type := mkMemoryDesc {
  precisionSize : Z;
  hasLayoutType : LayoutType -> bool;
  staticDims : list Z;
  blockDims : list Z
}.

Definition with_attrs_ctor (g ax rank : Z) (a : ShuffleChannelsAttributes)
  : ShuffleChannelsAttributes :=
  mkAttrs (layoutType a) rank ax (spatialRank a) g (dataSize a)
          (srcDims a) (srcBlockedDims a).

(** [get_group()] is an [int64_t] and [attrs.group] a [size_t]: the
    assignment reduces the value modulo 2^64. *)
Definition size_t_of_int64 (z : Z) : Z := z `mod` size_t_modulus.

(** The attribute part of [MKLDNNShuffleChannelsNode::MKLDNNShuffleChannelsNode]:
    [get_group()], [get_axis()] and the input rank are stored, a negative axis
    is moved up by the rank.  [attrs0] is the default-initialised member.
    The group count is converted to [size_t]; [op_axis] and [rank] are [int]
    values as in the conventions above, that is the axis of the operation and
    the rank of the input are taken to fit an [int]. *)
Definition node_attrs (attrs0 : ShuffleChannelsAttributes) (op_group op_axis rank : Z)
  : ShuffleChannelsAttributes :=
  let a := with_attrs_ctor (size_t_of_int64 op_group) op_axis rank attrs0 in
  if decide (axis a < 0)
  then with_attrs_ctor (group a) (axis a + dataRank a) (dataRank a) a
  else a.

(** [supportDynamicBatch = (attrs.axis != 0)] *)
Definition node_supportDynamicBatch (a : ShuffleChannelsAttributes) : bool :=
  negb (bool_decide (axis a = 0)).

(** The attribute part of [createPrimitive]. *)
Definition createPrimitive_attrs (m : MemoryDesc) (a : ShuffleChannelsAttributes)
  : ShuffleChannelsAttributes :=
  mkAttrs (if hasLayoutType m nCsp16c then nCsp16c
           else if hasLayoutType m nCsp8c then nCsp8c
           else if hasLayoutType m nspc then nspc else ncsp)
          (dataRank a) (axis a) (dataRank a - axis a - 1) (group a)
          (precisionSize m) (srcDims a) (srcBlockedDims a).

(** The attribute part of [prepareParams]. *)
Definition prepareParams_attrs (m : MemoryDesc) (a : ShuffleChannelsAttributes)
  : ShuffleChannelsAttributes :=
  mkAttrs (layoutType a) (dataRank a) (axis a) (spatialRank a) (group a)
          (dataSize a) (staticDims m) (blockDims m).

(** The executor a node ends up with: the builder of [prepareParams] run on
    the attributes the three steps above have filled in. *)
Definition node_executor (attrs0 : ShuffleChannelsAttributes)
    (op_group op_axis rank : Z) (m : MemoryDesc) : outcome ShuffleChannelsExecutor :=
  ShuffleChannelsExecutor_new
    (prepareParams_attrs m (createPrimitive_attrs m (node_attrs attrs0 op_group op_axis rank))).

(** ** Vectors of a known length as tabulated functions

    Every vector of the parameters is resized to the reshaped rank before it
    is written; such a vector is [tab f n] for the function [f] giving its
    entries, and an indexed write is a pointwise update of [f]. *)

Definition tab (f : Z -> Z) (n : Z) : list Z := f <$> seqZ 0 n.

Definition upd (f : Z -> Z) (i x : Z) : Z -> Z :=
  fun k => if decide (k = i) then x else f k.

(** Entry [i] of a vector, [0] outside of it. *)
Definition entry (v : list Z) (i : Z) : Z := default 0 (v !! Z.to_nat i).

(** The value of an outcome, [0] when there is none. *)
Definition value (m : outcome Z) : Z :=
  match m with
  | Ok x => x
  | _ => 0
  end.

(** The parameters while the constructor runs: three tabulated vectors of
    length [n], the two block orders and the element size. *)
Definition pstate (n : Z) (s d o : Z -> Z) (X Y : list Z) (ds : Z) : PermuteParams :=
  mkParams (tab s n) (tab d n) X Y (tab o n) ds.

(** Entries below [i] copied: [f k = k], respectively [f k = src[k + shift]],
    for [lo <= k < i]. *)
Definition copied_order (lo i : Z) (f : Z -> Z) : Z -> Z :=
  fun k => if decide (lo <= k < i) then k else f k.

Definition copied_dims (src : list Z) (shift lo i : Z) (f : Z -> Z) : Z -> Z :=
  fun k => if decide (lo <= k < i) then entry src (k + shift) else f k.

(** The two entries written by [decomposeAndTranpose]. *)
Definition decomposed_order (ax : Z) (f : Z -> Z) : Z -> Z :=
  upd (upd f ax (ax + 1)) (ax + 1) ax.

Definition decomposed_dims (g gs ax : Z) (f : Z -> Z) : Z -> Z :=
  upd (upd f ax g) (ax + 1) gs.

(** Entries written by the first [i] rounds of the channels-last loop over
    the axes before the shuffled one: axis 0 stays, axis 1 (the channel) goes
    to the last position [n - 1], axis [k + 1] goes to position [k]. *)
Definition channels_last_order (n i : Z) (f : Z -> Z) : Z -> Z :=
  fun k => if decide (k = 0 /\ 1 <= i) then 0
           else if decide (k = n - 1 /\ 2 <= i) then n - 1
           else if decide (1 <= k < i - 1) then k
           else f k.

Definition channels_last_dims (src : list Z) (n i : Z) (f : Z -> Z) : Z -> Z :=
  fun k => if decide (k = 0 /\ 1 <= i) then entry src 0
           else if decide (k = n - 1 /\ 2 <= i) then entry src 1
           else if decide (1 <= k < i - 1) then entry src (k + 1)
           else f k.

(** Destination extents filled in below [i]. *)
Definition gathered (s o : Z -> Z) (i : Z) (f : Z -> Z) : Z -> Z :=
  fun k => if decide (0 <= k < i) then s (o k) else f k.

(** *** The parameters in closed form

    What the constructor computes when it completes, written without loops
    and without bounds checks; [buildParams_Ok] below shows the agreement. *)

Definition zero : Z -> Z := fun _ => 0.

Definition groupSize_of (attrs : ShuffleChannelsAttributes) : Z :=
  entry (srcDims attrs) (axis attrs) / group attrs.

Definition spatialShapeSize_of (attrs : ShuffleChannelsAttributes) : Z :=
  if bool_decide (spatialRank attrs = 0) then 1
  else value (mul_dims (srcDims attrs) (axis attrs + 1) (dataRank attrs) 1).

Definition blkSize_of (attrs : ShuffleChannelsAttributes) : Z :=
  value (vec_back (srcBlockedDims attrs)).

(** The position at which the shuffled axis is split in two. *)
Definition decomposedAxis (attrs : ShuffleChannelsAttributes) : Z :=
  if isBlockedLayout (layoutType attrs) then
    if decide (axis attrs > channelDim) then axis attrs else 0
  else if isChannelsLastLayout (layoutType attrs) then
    if decide (axis attrs = channelDim) then 2
    else if decide (axis attrs > channelDim) then axis attrs - 1
    else 0
  else axis attrs.

Definition closed_order (attrs : ShuffleChannelsAttributes) : Z -> Z :=
  let a := axis attrs in
  let n := reshapedRank attrs in
  if isBlockedLayout (layoutType attrs) then
    if decide (a > channelDim)
    then upd (decomposed_order a (copied_order 0 a zero)) (a + 2) (a + 2)
    else upd (decomposed_order 0 zero) 2 2
  else if isChannelsLastLayout (layoutType attrs) then
    if decide (a = channelDim) then decomposed_order 2 (upd (upd zero 0 0) 1 1)
    else if decide (a > channelDim) then
      let o := decomposed_order (a - 1) (channels_last_order n a zero) in
      if bool_decide (spatialRank attrs = 0) then o else upd o (a + 1) (a + 1)
    else upd (decomposed_order 0 zero) 2 2
  else
    let o := decomposed_order a (copied_order 0 a zero) in
    if bool_decide (spatialRank attrs = 0) then o else upd o (a + 2) (a + 2).

Definition closed_dims (attrs : ShuffleChannelsAttributes) : Z -> Z :=
  let a := axis attrs in
  let n := reshapedRank attrs in
  let g := group attrs in
  let gs := groupSize_of attrs in
  let sp := spatialShapeSize_of attrs in
  if isBlockedLayout (layoutType attrs) then
    if decide (a > channelDim)
    then upd (decomposed_dims g gs a (copied_dims (srcBlockedDims attrs) 0 0 a zero))
             (a + 2) (size_t_mul sp (blkSize_of attrs))
    else upd (decomposed_dims g gs 0 zero) 2
             (value (mul_dims (srcDims attrs) 2 (dataRank attrs)
                       (size_t_mul (entry (srcBlockedDims attrs) 1) (blkSize_of attrs))))
  else if isChannelsLastLayout (layoutType attrs) then
    if decide (a = channelDim)
    then decomposed_dims g gs 2 (upd (upd zero 0 (entry (srcDims attrs) 0)) 1 sp)
    else if decide (a > channelDim) then
      let s := decomposed_dims g gs (a - 1) (channels_last_dims (srcDims attrs) n a zero) in
      if bool_decide (spatialRank attrs = 0) then s else upd s (a + 1) sp
    else upd (decomposed_dims g gs 0 zero) 2 sp
  else
    let s := decomposed_dims g gs a (copied_dims (srcDims attrs) 0 0 a zero) in
    if bool_decide (spatialRank attrs = 0) then s else upd s (a + 2) sp.

Definition closedParams (attrs : ShuffleChannelsAttributes) : PermuteParams :=
  let n := reshapedRank attrs in
  pstate n (closed_dims attrs) (fun k => closed_dims attrs (closed_order attrs k))
         (closed_order attrs) (seqZ 0 n) (seqZ 0 n) (dataSize attrs).

(** *** Well-formed attribute bundles

    What the node guarantees about the bundle it hands to the constructor,
    as far as the constructor relies on it: a supported layout tag, [dataRank]
    the length of [srcDims], the axis inside the rank, [spatialRank] the number
    of axes behind it (set in [createPrimitive]), a positive group count; the
    blocked extents of a blocked layout have the inner block as an extra entry;
    a channels-last layout has an axis left behind a shuffled batch or channel
    axis (without one the constructor writes past the end of its vectors). *)
Definition wellFormed (attrs : ShuffleChannelsAttributes) : Prop :=
  one_of (layoutType attrs) [nCsp16c; nCsp8c; nspc; ncsp] = true
  /\ dataRank attrs = Z.of_nat (length (srcDims attrs))
  /\ 0 <= axis attrs < dataRank attrs
  /\ spatialRank attrs = dataRank attrs - axis attrs - 1
  /\ 0 < group attrs
  /\ (isBlockedLayout (layoutType attrs) = true ->
      dataRank attrs < Z.of_nat (length (srcBlockedDims attrs)))
  /\ (isChannelsLastLayout (layoutType attrs) = true ->
      axis attrs <= channelDim -> spatialRank attrs <> 0).

(** *** States of the loops after [i] rounds *)

Definition prefix_state (src : list Z) (n : Z) (s d o : Z -> Z) (X Y : list Z)
    (ds i : Z) : PermuteParams :=
  pstate n (copied_dims src 0 0 i s) d (copied_order 0 i o) X Y ds.

Definition channels_last_state (src : list Z) (n : Z) (s d o : Z -> Z)
    (X Y : list Z) (ds i : Z) : PermuteParams :=
  pstate n (channels_last_dims src n i s) d (channels_last_order n i o) X Y ds.

Definition dst_state (n : Z) (s d o : Z -> Z) (X Y : list Z) (ds i : Z)
  : PermuteParams :=
  pstate n s (gathered s o i d) o X Y ds.

(** *** The kernel as a gather over blocks *)

(** [sum_k idx[k] * pstr[k]] *)
Definition dotZ (idx pstr : list Z) : Z := foldr Z.add 0 (zip_with Z.mul idx pstr).

(** The source strides in destination order: entry [k] is the stride of
    source axis [order[k]]. *)
Definition permuted_strides (p : PermuteParams) : list Z :=
  (fun o => default 0 (strides (src_block_dims p) !! Z.to_nat o)) <$> order p.

(** The bytes gathered for the box [dims], the multi-index weighted by
    [pstr], starting from element [base]. *)
Fixpoint gather (n : Z) (buf : list byte) (dims pstr : list Z) (base : Z) : list byte :=
  match dims with
  | [] => element n buf base
  | d :: dims' =>
      i ← seqZ 0 d; gather n buf dims' (tail pstr) (base + i * default 0 (head pstr))
  end.

(** Block [j] of a buffer cut into blocks of [L] bytes. *)
Definition block (L : nat) (buf : list byte) (j : nat) : list byte :=
  take L (drop (j * L) buf).

(** The buffer read as [nP] slabs of [ng x nh] blocks, written out as [nP]
    slabs of [nh x ng] blocks. *)
Definition transposeBlocks (L nP ng nh : nat) (buf : list byte) : list byte :=
  q ← seq 0 nP; y ← seq 0 nh; x ← seq 0 ng; block L buf ((q * ng + x) * nh + y)%nat.

(** The folded axis behind the shuffled one, when there is one. *)
Definition spatial_cells (attrs : ShuffleChannelsAttributes) : list Z :=
  if bool_decide (spatialRank attrs = 0) then [] else [spatialShapeSize_of attrs].

(** The extents of the axes before the shuffled one. *)
Definition batch_dims (attrs : ShuffleChannelsAttributes) : list Z :=
  tab (entry (srcDims attrs)) (axis attrs).

Definition trailing (last_axis : bool) (x : Z) : list Z :=
  if last_axis then [] else [x].

(** The configuration that undoes a shuffle: same shape and axis, the group
    count replaced by the group size [shape[axis] / group]. *)
Definition inverse_configuration (attrs : ShuffleChannelsAttributes)
  : ShuffleChannelsAttributes :=
  mkAttrs (layoutType attrs) (dataRank attrs) (axis attrs) (spatialRank attrs)
          (entry (srcDims attrs) (axis attrs) / group attrs)
          (dataSize attrs) (srcDims attrs) (srcBlockedDims attrs).

(** A batch that changes nothing: no override, or the plan's own axis-0
    extent (what the node passes when the shape is static). *)
Definition own_batch (p : PermuteParams) (MB : Z) : Prop :=
  MB <= 0 \/ MB = default 0 (head (dst_block_dims p)).

(** The 32-bit values [w0 .. w3], little-endian, as the bytes of one 2x2
    channel. *)
Definition channel_of_words (w0 w1 w2 w3 : byte) : list byte :=
  [w0; "000"; "000"; "000"; w1; "000"; "000"; "000";
   w2; "000"; "000"; "000"; w3; "000"; "000"; "000"]%byte.

(** ** The node: construction, descriptors, execution *)

(** The operation a node is built from, as far as the node looks at it:
    [ov::as_type_ptr<const ngraph::op::v0::ShuffleChannels>(op)] is non-null
    exactly for [ShuffleChannels_v0], whose [get_group()] and [get_axis()] are
    the two arguments. *)
Inductive Op : Type :=
  | ShuffleChannels_v0 (op_group op_axis : Z)
  | OtherOp.

(** [isSupportedOperation(op, errorMessage)]: the result and the message left
    in [errorMessage]. *)
Definition isSupportedOperation (op : Op) : bool * string :=
  match op with
  | ShuffleChannels_v0 _ _ => (true, EmptyString)
  | OtherOp => (false, "Only opset1 ShuffleChannels operation is supported"%string)
  end.

(** [THROW_SHCH_ERROR << msg] *)
Definition THROW_SHCH_ERROR {A : Type} (name msg : string) : outcome A :=
  Throws ("ShuffleChannels layer with name '" ++ name ++ "' " ++ msg)%string.

Record MKLDNNShuffleChannelsNode : Type := mkNode {
  attrs : ShuffleChannelsAttributes;
  supportDynamicBatch : bool;
  execPtr : option ShuffleChannelsExecutor
}.

(** [MKLDNNShuffleChannelsNode::MKLDNNShuffleChannelsNode(op, eng, cache)].
    [inputShapes] and [outputShapes] hold the rank of each shape, the only
    thing the constructor reads of them; [attrs0] is the default-initialised
    member. *)
Definition MKLDNNShuffleChannelsNode_new (name : string)
    (attrs0 : ShuffleChannelsAttributes) (op : Op) (inputShapes outputShapes : list Z)
  : outcome MKLDNNShuffleChannelsNode :=
  let '(supported, errorMessage) := isSupportedOperation op in
  if negb supported then Throws errorMessage
  else if negb (bool_decide (length inputShapes = 1%nat))
          || negb (bool_decide (length outputShapes = 1%nat))
  then THROW_SHCH_ERROR name "has incorrect number of input/output edges."
  else
    match op with
    | ShuffleChannels_v0 op_group op_axis =>
        rank ← vec_get inputShapes 0;
        let a := node_attrs attrs0 op_group op_axis rank in
        Ok (mkNode a (node_supportDynamicBatch a) None)
    | OtherOp => Undefined
    end.






(** The conversion of a [size_t] to [int]: the low 32 bits, read as a signed
    number. *)
Definition int_of_size_t (z : Z) : Z := (z + 2 ^ 31) `mod` 2 ^ 32 - 2 ^ 31.

(** [execute(strm)]: the content of the destination memory afterwards.
    [isDynamicNode], [staticDims] (of the source memory) and [batchToProcess]
    are what the node framework reports. *)
Definition execute (name : string) (node : MKLDNNShuffleChannelsNode)
    (isDynamicNode : bool) (staticDims : list Z) (batchToProcess : Z)
    (srcData : list byte) : outcome (list byte) :=
  match execPtr node with
  | None => THROW_SHCH_ERROR name "doesn't have a compiled executor."
  | Some e =>
      MB ← (if supportDynamicBatch node
            then if isDynamicNode
                 then d ← vec_get staticDims 0; Ok (int_of_size_t d)
                 else Ok batchToProcess
            else Ok (-1));
      exec e srcData MB
  end.

(** [prepareParams()] for a source memory with a blocked descriptor and a
    runtime cache without an entry for the key: the two assignments to
    [attrs], the builder run on them, and its executor stored in [execPtr].
    The cast to [BlockedMemoryDesc] and the cache, with the test of its
    result for null, are code of the framework outside this file; this is the
    path on which they hand back the builder's executor. *)
Definition prepareParams (m : MemoryDesc) (node : MKLDNNShuffleChannelsNode)
  : outcome MKLDNNShuffleChannelsNode :=
  let a := prepareParams_attrs m (attrs node) in
  e ← ShuffleChannelsExecutor_new a;
  Ok (mkNode a (supportDynamicBatch node) (Some e)).



(** The attributes on which the constructor runs to completion: a supported
    layout, the shuffled axis inside the shape, a non-zero group count, and
    every vector long enough for the reads and writes of the branch taken. *)
Definition accepted (attrs : ShuffleChannelsAttributes) : Prop :=
  one_of (layoutType attrs) [nCsp16c; nCsp8c; nspc; ncsp] = true
  /\ 0 <= axis attrs < Z.of_nat (length (srcDims attrs))
  /\ group attrs <> 0
  /\ (spatialRank attrs <> 0 -> dataRank attrs <= Z.of_nat (length (srcDims attrs)))
  /\ (isBlockedLayout (layoutType attrs) = true ->
      2 <= Z.of_nat (length (srcBlockedDims attrs))
      /\ (axis attrs > channelDim -> axis attrs <= Z.of_nat (length (srcBlockedDims attrs)))
      /\ (axis attrs <= channelDim -> 2 < dataRank attrs ->
          dataRank attrs <= Z.of_nat (length (srcDims attrs))))
  /\ (isBlockedLayout (layoutType attrs) = false ->
      isChannelsLastLayout (layoutType attrs) = true ->
      axis attrs <= channelDim -> spatialRank attrs <> 0).

(** * Properties *)

(** ** The outcome monad and loops *)

Lemma bind_Ok {A B : Type} (m : outcome A) (f : A -> outcome B) (b : B) :
  m ≫= f = Ok b <-> exists a, m = Ok a /\ f a = Ok b.
Proof.
  destruct m as [a| |]; simpl; split; try (intros [a' [? ?]]); try discriminate.
  - intros H. by exists a.
  - by simplify_eq.
Qed.

Lemma foldM_app {T A : Type} (body : A -> T -> outcome T) (l1 l2 : list A) (s : T) :
  foldM body (l1 ++ l2) s = foldM body l1 s ≫= foldM body l2.
Proof.
  revert s. induction l1 as [|i l1 IH]; intros s; simpl; [done|].
  destruct (body i s) as [s'| |]; simpl; auto.
Qed.

Lemma for_loop_empty {T : Type} (lo hi : Z) (body : Z -> T -> outcome T) (s : T) :
  hi <= lo -> for_loop lo hi body s = Ok s.
Proof. intros H. unfold for_loop. rewrite seqZ_nil by lia. done. Qed.

Lemma for_loop_snoc {T : Type} (lo hi : Z) (body : Z -> T -> outcome T) (s : T) :
  lo <= hi ->
  for_loop lo (hi + 1) body s = for_loop lo hi body s ≫= body hi.
Proof.
  intros H. unfold for_loop.
  replace (hi + 1 - lo) with ((hi - lo) + 1) by lia.
  rewrite seqZ_app by lia. rewrite foldM_app.
  replace (lo + (hi - lo)) with hi by lia.
  rewrite (seqZ_cons hi 1) by lia. rewrite seqZ_nil by lia.
  destruct (foldM body (seqZ lo (hi - lo)) s) as [s'| |]; simpl; auto.
  by destruct (body hi s').
Qed.

(** A loop whose state after [i] rounds is [st i] ends in [st hi]. *)
Lemma for_loop_closed {T : Type} (st : Z -> T) (lo hi : Z) (body : Z -> T -> outcome T) :
  lo <= hi ->
  (forall i, lo <= i < hi -> body i (st i) = Ok (st (i + 1))) ->
  for_loop lo hi body (st lo) = Ok (st hi).
Proof.
  intros Hle Hstep.
  assert (forall n : nat, lo + Z.of_nat n <= hi ->
            for_loop lo (lo + Z.of_nat n) body (st lo) = Ok (st (lo + Z.of_nat n))) as H.
  { induction n as [|n IH]; intros Hn.
    - rewrite for_loop_empty by lia. f_equal. f_equal. lia.
    - replace (lo + Z.of_nat (S n)) with (lo + Z.of_nat n + 1) by lia.
      rewrite for_loop_snoc by lia. rewrite IH by lia. simpl.
      apply Hstep. lia. }
  specialize (H (Z.to_nat (hi - lo))).
  replace (lo + Z.of_nat (Z.to_nat (hi - lo))) with hi in H by lia.
  apply H. lia.
Qed.

(** Conversely, a loop that ends went through the states [st i], and every
    round met the condition [C] under which a round succeeds. *)
Lemma for_loop_inv {T : Type} (st : Z -> T) (C : Z -> Prop) (lo hi : Z)
    (body : Z -> T -> outcome T) (s' : T) :
  lo <= hi ->
  (forall i s1, lo <= i < hi -> body i (st i) = Ok s1 -> C i /\ s1 = st (i + 1)) ->
  for_loop lo hi body (st lo) = Ok s' ->
  s' = st hi /\ forall i, lo <= i < hi -> C i.
Proof.
  intros Hle Hstep.
  assert (forall (n : nat) s2, lo + Z.of_nat n <= hi ->
            for_loop lo (lo + Z.of_nat n) body (st lo) = Ok s2 ->
            s2 = st (lo + Z.of_nat n) /\ forall i, lo <= i < lo + Z.of_nat n -> C i) as H.
  { induction n as [|n IH]; intros s2 Hn Hrun.
    - rewrite for_loop_empty in Hrun by lia. simplify_eq. split; [f_equal; lia | lia].
    - replace (lo + Z.of_nat (S n)) with (lo + Z.of_nat n + 1) in Hrun by lia.
      rewrite for_loop_snoc in Hrun by lia.
      apply bind_Ok in Hrun as (s1 & Hrun & Hlast).
      apply IH in Hrun as [-> HC]; [|lia].
      apply Hstep in Hlast as [Hc ->]; [|lia]. split; [f_equal; lia|].
      intros i Hi. destruct (decide (i = lo + Z.of_nat n)) as [->|]; [done|].
      apply HC. lia. }
  intros Hrun. specialize (H (Z.to_nat (hi - lo)) s').
  replace (lo + Z.of_nat (Z.to_nat (hi - lo))) with hi in H by lia.
  apply H; [lia | done].
Qed.

(** ** Reads and writes of tabulated vectors *)

Lemma length_tab (f : Z -> Z) (n : Z) : length (tab f n) = Z.to_nat n.
Proof. unfold tab. by rewrite length_fmap, length_seqZ. Qed.

Lemma lookup_tab (f : Z -> Z) (n : Z) (i : nat) :
  Z.of_nat i < n -> tab f n !! i = Some (f (Z.of_nat i)).
Proof.
  intros H. unfold tab. rewrite list_lookup_fmap, lookup_seqZ_lt by done.
  simpl. f_equal.
Qed.

Lemma lookup_tab_Z (f : Z -> Z) (n i : Z) :
  0 <= i < n -> tab f n !! Z.to_nat i = Some (f i).
Proof. intros H. rewrite lookup_tab by lia. do 2 f_equal. lia. Qed.

Lemma lookup_tab_ge (f : Z -> Z) (n : Z) (i : nat) :
  n <= Z.of_nat i -> tab f n !! i = None.
Proof.
  intros H. unfold tab. by rewrite list_lookup_fmap, lookup_seqZ_ge.
Qed.

Lemma tab_ext (f g : Z -> Z) (n : Z) :
  (forall k, 0 <= k < n -> f k = g k) -> tab f n = tab g n.
Proof.
  intros H. unfold tab. apply list_fmap_ext. intros i x Hx.
  apply lookup_seqZ in Hx as [-> ?]. apply H. lia.
Qed.

Lemma replicate_tab (n x : Z) : replicate (Z.to_nat n) x = tab (fun _ => x) n.
Proof.
  apply list_eq. intros i. destruct (decide (Z.of_nat i < n)).
  - rewrite lookup_tab by done. apply lookup_replicate_2. lia.
  - rewrite lookup_tab_ge by lia. apply lookup_replicate_None. lia.
Qed.

Lemma seqZ_tab (n : Z) : seqZ 0 n = tab (fun k => k) n.
Proof. unfold tab. by rewrite list_fmap_id. Qed.

Lemma vec_get_tab (f : Z -> Z) (n i : Z) :
  vec_get (tab f n) i = if decide (0 <= i < n) then Ok (f i) else Undefined.
Proof.
  unfold vec_get. destruct (decide (0 <= i)); repeat case_decide; try lia; try done.
  - by rewrite lookup_tab_Z.
  - rewrite lookup_tab_ge by lia. done.
Qed.

Lemma vec_set_tab (f : Z -> Z) (n i x : Z) :
  vec_set (tab f n) i x
  = if decide (0 <= i < n) then Ok (tab (upd f i x) n) else Undefined.
Proof.
  unfold vec_set. rewrite length_tab.
  repeat case_decide; try lia; try done. f_equal.
  apply list_eq. intros j. destruct (decide (Z.of_nat j < n)).
  - rewrite lookup_tab by done. unfold upd.
    destruct (decide (j = Z.to_nat i)) as [->|Hne].
    + rewrite list_lookup_insert_eq by (rewrite length_tab; lia).
      case_decide; [done | lia].
    + rewrite list_lookup_insert_ne by done. rewrite lookup_tab by done.
      case_decide; [lia | done].
  - rewrite lookup_tab_ge by lia.
    apply lookup_ge_None. rewrite length_insert, length_tab. lia.
Qed.

Lemma vec_get_entry (v : list Z) (i x : Z) :
  vec_get v i = Ok x -> x = entry v i /\ 0 <= i < Z.of_nat (length v).
Proof.
  unfold vec_get, entry. case_decide; [|done].
  destruct (v !! Z.to_nat i) eqn:E; [|done]. intros ?; simplify_eq. split; [done|].
  apply lookup_lt_Some in E. lia.
Qed.

Lemma vec_get_in_range (v : list Z) (i : Z) :
  0 <= i < Z.of_nat (length v) -> vec_get v i = Ok (entry v i).
Proof.
  intros H. unfold vec_get, entry. case_decide; [|lia].
  destruct (lookup_lt_is_Some_2 v (Z.to_nat i)) as [x ->]; [lia | done].
Qed.

Lemma vec_get_decide (v : list Z) (i : Z) :
  vec_get v i
  = if decide (0 <= i < Z.of_nat (length v)) then Ok (entry v i) else Undefined.
Proof.
  case_decide as H; [by apply vec_get_in_range|].
  destruct (vec_get v i) as [x| |] eqn:E; try done.
  - apply vec_get_entry in E. lia.
  - unfold vec_get in E. case_decide; [|done]. by destruct (v !! Z.to_nat i).
Qed.

Lemma pstate_ext (n : Z) (s s' d d' o o' : Z -> Z) (X Y : list Z) (ds : Z) :
  (forall k, 0 <= k < n -> s k = s' k) ->
  (forall k, 0 <= k < n -> d k = d' k) ->
  (forall k, 0 <= k < n -> o k = o' k) ->
  pstate n s d o X Y ds = pstate n s' d' o' X Y ds.
Proof.
  intros Hs Hd Ho. unfold pstate.
  by rewrite (tab_ext s s'), (tab_ext d d'), (tab_ext o o').
Qed.

Lemma set_order_pstate (n : Z) (s d o : Z -> Z) (X Y : list Z) (ds i x : Z) :
  set_order i x (pstate n s d o X Y ds)
  = if decide (0 <= i < n) then Ok (pstate n s d (upd o i x) X Y ds) else Undefined.
Proof.
  unfold set_order, pstate; simpl. rewrite vec_set_tab. by case_decide.
Qed.

Lemma set_src_block_dims_pstate (n : Z) (s d o : Z -> Z) (X Y : list Z) (ds i x : Z) :
  set_src_block_dims i x (pstate n s d o X Y ds)
  = if decide (0 <= i < n) then Ok (pstate n (upd s i x) d o X Y ds) else Undefined.
Proof.
  unfold set_src_block_dims, pstate; simpl. rewrite vec_set_tab. by case_decide.
Qed.

Lemma set_dst_block_dims_pstate (n : Z) (s d o : Z -> Z) (X Y : list Z) (ds i x : Z) :
  set_dst_block_dims i x (pstate n s d o X Y ds)
  = if decide (0 <= i < n) then Ok (pstate n s (upd d i x) o X Y ds) else Undefined.
Proof.
  unfold set_dst_block_dims, pstate; simpl. rewrite vec_set_tab. by case_decide.
Qed.

Lemma decomposeAndTranpose_pstate (attrs : ShuffleChannelsAttributes) (gs ax n : Z)
    (s d o : Z -> Z) (X Y : list Z) (ds : Z) :
  decomposeAndTranpose attrs gs ax (pstate n s d o X Y ds)
  = if decide (0 <= ax /\ ax + 1 < n)
    then Ok (pstate n (decomposed_dims (group attrs) gs ax s) d
                      (decomposed_order ax o) X Y ds)
    else Undefined.
Proof.
  unfold decomposeAndTranpose.
  rewrite set_src_block_dims_pstate.
  destruct (decide (0 <= ax < n)); simpl; [|case_decide; [lia | done]].
  rewrite set_src_block_dims_pstate.
  destruct (decide (0 <= ax + 1 < n)); simpl; [|case_decide; [lia | done]].
  rewrite set_order_pstate. rewrite decide_True by done. simpl.
  rewrite set_order_pstate. rewrite decide_True by done.
  rewrite decide_True by lia. done.
Qed.

(** One lemma for both directions of a loop whose round [i] succeeds exactly
    under the condition [C i]. *)
Lemma for_loop_steps {T : Type} (st : Z -> T) (C : Z -> Prop)
    `{forall i, Decision (C i)} (lo hi : Z) (body : Z -> T -> outcome T) :
  lo <= hi ->
  (forall i, lo <= i < hi ->
     body i (st i) = if decide (C i) then Ok (st (i + 1)) else Undefined) ->
  ((forall i, lo <= i < hi -> C i) -> for_loop lo hi body (st lo) = Ok (st hi))
  /\ (forall s', for_loop lo hi body (st lo) = Ok s' ->
        s' = st hi /\ forall i, lo <= i < hi -> C i).
Proof.
  intros Hle Hstep. split.
  - intros HC. apply for_loop_closed; [done|]. intros i Hi.
    rewrite Hstep by done. by rewrite decide_True by auto.
  - intros s'. apply for_loop_inv; [done|]. intros i s1 Hi.
    rewrite Hstep by done. case_decide; [|done]. intros ?; by simplify_eq.
Qed.

Ltac pointwise :=
  intros ? ?;
  unfold decomposed_dims, decomposed_order, copied_dims, copied_order,
    channels_last_order, channels_last_dims, gathered, upd;
  repeat case_decide; try lia; try done; try congruence; try (f_equal; lia).

Lemma order_pstate (n : Z) (s d o : Z -> Z) (X Y : list Z) (ds : Z) :
  order (pstate n s d o X Y ds) = tab o n.
Proof. done. Qed.

Lemma src_block_dims_pstate (n : Z) (s d o : Z -> Z) (X Y : list Z) (ds : Z) :
  src_block_dims (pstate n s d o X Y ds) = tab s n.
Proof. done. Qed.

Ltac run_step :=
  unfold prefix_state, channels_last_state, dst_state;
  repeat (first
    [ rewrite order_pstate
    | rewrite src_block_dims_pstate
    | rewrite set_order_pstate
    | rewrite set_src_block_dims_pstate
    | rewrite set_dst_block_dims_pstate
    | rewrite decomposeAndTranpose_pstate
    | rewrite vec_get_tab
    | rewrite vec_get_decide
    | case_decide ]; simpl; try lia; try done).

Section prefix_loops.
Variables (src : list Z) (n : Z) (s d o : Z -> Z) (X Y : list Z) (ds : Z).
Hypothesis n_nonneg : 0 <= n.

Lemma prefix_state_start :
  pstate n s d o X Y ds = prefix_state src n s d o X Y ds 0.
Proof. apply pstate_ext; pointwise. Qed.

Lemma prefix_rounds_in_range (a : Z) :
  0 <= a ->
  (forall i, 0 <= i < a -> i < Z.of_nat (length src) /\ i < n)
  <-> a <= Z.of_nat (length src) /\ a <= n.
Proof.
  intros Ha. split.
  - intros H. destruct (decide (a = 0)) as [->|]; [lia|].
    specialize (H (a - 1)). lia.
  - intros H i Hi. lia.
Qed.

(** The loop of the planar branch. *)
Lemma planar_loop (a : Z) :
  let body := fun (i : Z) (p : PermuteParams) =>
                x ← vec_get src i; p ← set_src_block_dims i x p; set_order i i p in
  0 <= a ->
  (a <= Z.of_nat (length src) /\ a <= n ->
     for_loop 0 a body (pstate n s d o X Y ds) = Ok (prefix_state src n s d o X Y ds a))
  /\ (forall p', for_loop 0 a body (pstate n s d o X Y ds) = Ok p' ->
        p' = prefix_state src n s d o X Y ds a
        /\ a <= Z.of_nat (length src) /\ a <= n).
Proof.
  intros body Ha. rewrite prefix_state_start.
  destruct (for_loop_steps (prefix_state src n s d o X Y ds)
              (fun i => i < Z.of_nat (length src) /\ i < n) 0 a body Ha)
    as [Hfwd Hinv].
  { intros i Hi. unfold body, prefix_state. run_step.
    f_equal. apply pstate_ext; pointwise. }
  split.
  - intros H. apply Hfwd. by apply prefix_rounds_in_range.
  - intros p' Hp. apply Hinv in Hp as [-> HC]. split; [done|].
    by apply prefix_rounds_in_range.
Qed.

(** The loop of the blocked branch. *)
Lemma blocked_loop (a : Z) :
  let body := fun (i : Z) (p : PermuteParams) =>
                p ← set_order i i p; x ← vec_get src i; set_src_block_dims i x p in
  0 <= a ->
  (a <= Z.of_nat (length src) /\ a <= n ->
     for_loop 0 a body (pstate n s d o X Y ds) = Ok (prefix_state src n s d o X Y ds a))
  /\ (forall p', for_loop 0 a body (pstate n s d o X Y ds) = Ok p' ->
        p' = prefix_state src n s d o X Y ds a
        /\ a <= Z.of_nat (length src) /\ a <= n).
Proof.
  intros body Ha. rewrite prefix_state_start.
  destruct (for_loop_steps (prefix_state src n s d o X Y ds)
              (fun i => i < Z.of_nat (length src) /\ i < n) 0 a body Ha)
    as [Hfwd Hinv].
  { intros i Hi. unfold body, prefix_state. run_step.
    f_equal. apply pstate_ext; pointwise. }
  split.
  - intros H. apply Hfwd. by apply prefix_rounds_in_range.
  - intros p' Hp. apply Hinv in Hp as [-> HC]. split; [done|].
    by apply prefix_rounds_in_range.
Qed.

(** The loop of the channels-last branch with the shuffled axis behind the
    channel axis. *)
Lemma channels_last_loop (a : Z) :
  let body := fun (i : Z) (p : PermuteParams) =>
    if decide (i = 0) then
      p ← set_order i i p; x ← vec_get src i; set_src_block_dims i x p
    else if decide (i = 1) then
      p ← set_order (n - 1) (n - 1) p;
      o ← vec_get (order p) (n - 1);
      x ← vec_get src i;
      set_src_block_dims o x p
    else if decide (i > 1) then
      p ← set_order (i - 1) (i - 1) p; x ← vec_get src i; set_src_block_dims (i - 1) x p
    else Ok p in
  0 <= a -> a < n ->
  (a <= Z.of_nat (length src) ->
     for_loop 0 a body (pstate n s d o X Y ds)
     = Ok (channels_last_state src n s d o X Y ds a))
  /\ (forall p', for_loop 0 a body (pstate n s d o X Y ds) = Ok p' ->
        p' = channels_last_state src n s d o X Y ds a
        /\ a <= Z.of_nat (length src)).
Proof.
  intros body Ha Han.
  assert (pstate n s d o X Y ds = channels_last_state src n s d o X Y ds 0) as ->
    by (apply pstate_ext; pointwise).
  destruct (for_loop_steps (channels_last_state src n s d o X Y ds)
              (fun i => i < Z.of_nat (length src)) 0 a body Ha) as [Hfwd Hinv].
  { intros i Hi. unfold body, channels_last_state. run_step;
      try (unfold upd in *; case_decide; lia);
      f_equal; apply pstate_ext; pointwise. }
  assert ((forall i, 0 <= i < a -> i < Z.of_nat (length src))
          <-> a <= Z.of_nat (length src)) as HC.
  { split.
    - intros H. destruct (decide (a = 0)) as [->|]; [lia|].
      specialize (H (a - 1)). lia.
    - intros H i Hi. lia. }
  split.
  - intros H. apply Hfwd. by apply HC.
  - intros p' Hp. apply Hinv in Hp as [-> HC']. split; [done|]. by apply HC.
Qed.

(** The closing loop [dst_block_dims[i] = src_block_dims[order[i]]]. *)
Lemma dst_loop :
  let body := fun (i : Z) (p : PermuteParams) =>
    o ← vec_get (order p) i;
    x ← vec_get (src_block_dims p) o;
    set_dst_block_dims i x p in
  ((forall i, 0 <= i < n -> 0 <= o i < n) ->
     for_loop 0 n body (pstate n s d o X Y ds) = Ok (dst_state n s d o X Y ds n))
  /\ (forall p', for_loop 0 n body (pstate n s d o X Y ds) = Ok p' ->
        p' = dst_state n s d o X Y ds n /\ forall i, 0 <= i < n -> 0 <= o i < n).
Proof.
  intros body.
  assert (pstate n s d o X Y ds = dst_state n s d o X Y ds 0) as ->
    by (apply pstate_ext; pointwise).
  apply (for_loop_steps (dst_state n s d o X Y ds) (fun i => 0 <= o i < n) 0 n body
           n_nonneg).
  intros i Hi. unfold body, dst_state. run_step.
  f_equal. apply pstate_ext; pointwise.
Qed.
End prefix_loops.

Lemma foldM_total {T A : Type} (body : A -> T -> outcome T) (l : list A) (s : T) :
  (forall i s, i ∈ l -> exists s', body i s = Ok s') ->
  exists s', foldM body l s = Ok s'.
Proof.
  revert s. induction l as [|i l IH]; intros s H; simpl; [by eexists|].
  destruct (H i s) as [s1 ->]; [by left|]. simpl.
  apply IH. intros j s2 Hj. apply H. by right.
Qed.

Lemma mul_dims_total (dims : list Z) (lo hi acc : Z) :
  0 <= lo -> hi <= Z.of_nat (length dims) ->
  mul_dims dims lo hi acc = Ok (value (mul_dims dims lo hi acc)).
Proof.
  intros Hlo Hhi.
  destruct (foldM_total (fun i acc => x ← vec_get dims i; Ok (size_t_mul acc x))
              (seqZ lo (hi - lo)) acc) as [r Hr].
  - intros i s Hi. apply elem_of_seqZ in Hi.
    rewrite vec_get_in_range by lia. by eexists.
  - unfold mul_dims, for_loop. by rewrite Hr.
Qed.

Lemma mul_dims_value (dims : list Z) (lo hi acc r : Z) :
  mul_dims dims lo hi acc = Ok r -> r = value (mul_dims dims lo hi acc).
Proof. by intros ->. Qed.

(** ** The constructor in closed form *)

Lemma reshapedRank_bounds (attrs : ShuffleChannelsAttributes) :
  axis attrs + 2 <= reshapedRank attrs <= axis attrs + 3.
Proof.
  unfold reshapedRank, int_of_bool.
  destruct (bool_decide (spatialRank attrs = 0)), (isBlockedLayout (layoutType attrs));
    simpl; lia.
Qed.

Lemma reshapedRank_blocked (attrs : ShuffleChannelsAttributes) :
  isBlockedLayout (layoutType attrs) = true -> reshapedRank attrs = axis attrs + 3.
Proof.
  unfold reshapedRank, int_of_bool. intros ->.
  destruct (bool_decide (spatialRank attrs = 0)); simpl; lia.
Qed.

Lemma reshapedRank_not_blocked (attrs : ShuffleChannelsAttributes) :
  isBlockedLayout (layoutType attrs) = false ->
  reshapedRank attrs
  = axis attrs + 2 + (if bool_decide (spatialRank attrs = 0) then 0 else 1).
Proof.
  unfold reshapedRank, int_of_bool. intros ->.
  destruct (bool_decide (spatialRank attrs = 0)); simpl; lia.
Qed.

Lemma finish_Ok (n : Z) (s o : Z -> Z) (X Y : list Z) (ds : Z) (p : PermuteParams) :
  0 <= n ->
  for_loop 0 n (fun i p =>
      o ← vec_get (order p) i;
      d ← vec_get (src_block_dims p) o;
      set_dst_block_dims i d p)
    (pstate n s zero o X Y ds) = Ok p ->
  p = pstate n s (fun k => s (o k)) o X Y ds
  /\ forall i, 0 <= i < n -> 0 <= o i < n.
Proof.
  intros Hn H. apply dst_loop in H as [-> Hr]; [|done]. split; [|done].
  unfold dst_state. apply pstate_ext; pointwise.
Qed.

Lemma finish_closed (n : Z) (s o : Z -> Z) (X Y : list Z) (ds : Z) :
  0 <= n -> (forall i, 0 <= i < n -> 0 <= o i < n) ->
  for_loop 0 n (fun i p =>
      o ← vec_get (order p) i;
      d ← vec_get (src_block_dims p) o;
      set_dst_block_dims i d p)
    (pstate n s zero o X Y ds)
  = Ok (pstate n s (fun k => s (o k)) o X Y ds).
Proof.
  intros Hn Hr.
  destruct (dst_loop n s zero o X Y ds Hn) as [Hfwd _].
  rewrite Hfwd by done. f_equal. unfold dst_state. apply pstate_ext; pointwise.
Qed.

Ltac closed_form :=
  unfold closed_dims, closed_order, decomposedAxis, channelDim;
  repeat match goal with
         | H : isBlockedLayout _ = _ |- _ => rewrite H
         | H : isChannelsLastLayout _ = _ |- _ => rewrite H
         | H : bool_decide _ = _ |- _ => rewrite H
         end;
  cbv beta iota zeta;
  repeat case_decide; try lia; try done.

Lemma buildParams_Ok (attrs : ShuffleChannelsAttributes) (p : PermuteParams) :
  buildParams attrs = Ok p ->
  p = closedParams attrs
  /\ one_of (layoutType attrs) [nCsp16c; nCsp8c; nspc; ncsp] = true
  /\ 0 <= axis attrs < Z.of_nat (length (srcDims attrs))
  /\ group attrs <> 0
  /\ (0 <= decomposedAxis attrs /\ decomposedAxis attrs + 1 < reshapedRank attrs)
  /\ (forall i, 0 <= i < reshapedRank attrs ->
        0 <= closed_order attrs i < reshapedRank attrs).
Proof.
  intros H. unfold buildParams in H.
  destruct (one_of (layoutType attrs) _) eqn:Hsupp; simpl in H; [|done].
  pose proof (reshapedRank_bounds attrs) as Hn.
  unfold vec_resize in H.
  destruct (decide (0 <= reshapedRank attrs)) as [Hn0|]; simpl in H; [|done].
  rewrite replicate_tab in H.
  apply bind_Ok in H as (extent & He & H). apply vec_get_entry in He as [-> Hax].
  apply bind_Ok in H as (gs & Hgs & H).
  unfold size_t_div in Hgs. destruct (decide (group attrs = 0)) as [|Hg]; [done|].
  injection Hgs as <-. fold (groupSize_of attrs) in H.
  apply bind_Ok in H as (sp & Hsp & H).
  assert (sp = spatialShapeSize_of attrs) as ->.
  { unfold spatialShapeSize_of. destruct (bool_decide (spatialRank attrs = 0)).
    - by injection Hsp. - by apply mul_dims_value. }
  clear Hsp.
  apply bind_Ok in H as (p1 & Hbranch & H).
  set (n := reshapedRank attrs) in *.
  set (X := tab zero n).
  change (mkParams _ _ _ _ _ _)
    with (pstate n zero zero zero X X (dataSize attrs)) in Hbranch.
  assert (p1 = pstate n (closed_dims attrs) zero (closed_order attrs) X X (dataSize attrs)
          /\ 0 <= decomposedAxis attrs /\ decomposedAxis attrs + 1 < n) as (-> & Hd).
  { unfold channelDim in *.
    destruct (isBlockedLayout (layoutType attrs)) eqn:Hb.
    - pose proof (reshapedRank_blocked attrs Hb) as Hn3. fold n in Hn3.
      apply bind_Ok in Hbranch as (blk & Hblk & Hbranch).
      assert (blk = blkSize_of attrs) as -> by (unfold blkSize_of; by rewrite Hblk).
      apply bind_Ok in Hbranch as (CB & HCB & Hbranch).
      apply vec_get_entry in HCB as [-> HCB].
      destruct (decide (axis attrs > 1)).
      + apply bind_Ok in Hbranch as (p2 & Hloop & Hbranch).
        apply blocked_loop in Hloop as (-> & ? & ?); [|lia..].
        revert Hbranch; run_step; intros [= <-];
          (split; [apply pstate_ext; closed_form; pointwise | closed_form]).
      + revert Hbranch. run_step. intros Hbranch.
        apply bind_Ok in Hbranch as (sp2 & Hsp2 & Hbranch).
        apply mul_dims_value in Hsp2 as ->.
        revert Hbranch; run_step; intros [= <-];
          (split; [apply pstate_ext; closed_form; pointwise | closed_form]).
    - pose proof (reshapedRank_not_blocked attrs Hb) as Hn3. fold n in Hn3.
      destruct (isChannelsLastLayout (layoutType attrs)) eqn:Hcl.
      + destruct (decide (axis attrs = 1)); [|destruct (decide (axis attrs > 1))].
        * revert Hbranch; run_step; intros [= <-];
            (split; [apply pstate_ext; closed_form; pointwise | closed_form]).
        * apply bind_Ok in Hbranch as (p2 & Hloop & Hbranch).
          apply channels_last_loop in Hloop as (-> & ?); [|lia..].
          revert Hbranch. destruct (bool_decide (spatialRank attrs = 0)) eqn:Hsr;
            run_step; intros [= <-];
            (split; [apply pstate_ext; closed_form; pointwise | closed_form]).
        * revert Hbranch; run_step; intros [= <-];
            (split; [apply pstate_ext; closed_form; pointwise | closed_form]).
      + apply bind_Ok in Hbranch as (p2 & Hloop & Hbranch).
        apply planar_loop in Hloop as (-> & ? & ?); [|lia..].
        revert Hbranch. destruct (bool_decide (spatialRank attrs = 0)) eqn:Hsr;
          run_step; intros [= <-];
          (split; [apply pstate_ext; closed_form; pointwise | closed_form]). }
  simpl in H.
  change (mkParams _ _ _ _ _ _)
    with (pstate n (closed_dims attrs) zero (closed_order attrs) (seqZ 0 n) (seqZ 0 n)
            (dataSize attrs)) in H.
  apply finish_Ok in H as [-> Hr]; [|done].
  done.
Qed.

Lemma bind_Ok_l {A B : Type} (a : A) (f : A -> outcome B) : Ok a ≫= f = f a.
Proof. done. Qed.

Lemma vec_back_value (v : list Z) :
  0 < Z.of_nat (length v) -> vec_back v = Ok (value (vec_back v)).
Proof.
  intros H. unfold vec_back. rewrite last_lookup.
  destruct (lookup_lt_is_Some_2 v (pred (length v))) as [x ->]; [lia | done].
Qed.

Lemma closed_order_range (attrs : ShuffleChannelsAttributes) (i : Z) :
  0 <= decomposedAxis attrs -> decomposedAxis attrs + 1 < reshapedRank attrs ->
  0 <= axis attrs ->
  0 <= i < reshapedRank attrs -> 0 <= closed_order attrs i < reshapedRank attrs.
Proof.
  pose proof (reshapedRank_bounds attrs) as Hn. revert Hn.
  unfold closed_order, decomposedAxis, channelDim.
  destruct (isBlockedLayout (layoutType attrs)),
           (isChannelsLastLayout (layoutType attrs)),
           (bool_decide (spatialRank attrs = 0));
    cbv beta iota zeta; intros Hn Hd1 Hd2 Ha Hi; revert Hd1 Hd2;
    unfold decomposed_order, copied_order, channels_last_order, upd, zero;
    repeat case_decide; lia.
Qed.

Lemma buildParams_closed (attrs : ShuffleChannelsAttributes) :
  wellFormed attrs -> buildParams attrs = Ok (closedParams attrs).
Proof.
  intros (Hsupp & Hrank & Hax & Hsr & Hg & Hblk & Hcl).
  pose proof (reshapedRank_bounds attrs) as Hn.
  unfold buildParams. rewrite Hsupp. cbv beta iota zeta. simpl negb. cbv iota.
  unfold vec_resize. rewrite decide_True by lia. rewrite !bind_Ok_l.
  rewrite replicate_tab.
  rewrite (vec_get_in_range (srcDims attrs) (axis attrs)) by lia. rewrite bind_Ok_l.
  unfold size_t_div. rewrite decide_False by lia. rewrite bind_Ok_l.
  fold (groupSize_of attrs).
  assert ((if bool_decide (spatialRank attrs = 0) then Ok 1
           else mul_dims (srcDims attrs) (axis attrs + 1) (dataRank attrs) 1)
          = Ok (spatialShapeSize_of attrs)) as ->.
  { unfold spatialShapeSize_of. destruct (bool_decide (spatialRank attrs = 0)); [done|].
    apply mul_dims_total; lia. }
  rewrite bind_Ok_l.
  set (n := reshapedRank attrs) in *.
  set (X := tab zero n).
  change (mkParams (tab _ n) _ _ _ _ _)
    with (pstate n zero zero zero X X (dataSize attrs)).
  match goal with
  | |- ?branch ≫= _ = _ =>
      assert (branch = Ok (pstate n (closed_dims attrs) zero (closed_order attrs) X X
                             (dataSize attrs))
              /\ 0 <= decomposedAxis attrs /\ decomposedAxis attrs + 1 < n)
        as (-> & Hd1 & Hd2)
  end.
  { unfold channelDim in *.
    destruct (isBlockedLayout (layoutType attrs)) eqn:Hb.
    - pose proof (reshapedRank_blocked attrs Hb) as Hn3. fold n in Hn3.
      specialize (Hblk eq_refl).
      rewrite vec_back_value by lia. fold (blkSize_of attrs). rewrite bind_Ok_l.
      rewrite vec_get_in_range by lia. rewrite bind_Ok_l.
      destruct (decide (axis attrs > 1)).
      + destruct (blocked_loop (srcBlockedDims attrs) n zero zero zero X X
                    (dataSize attrs) ltac:(lia) (axis attrs) ltac:(lia)) as [Hloop _].
        rewrite Hloop by lia. rewrite bind_Ok_l. run_step.
        split; [f_equal; apply pstate_ext; closed_form; pointwise | closed_form].
      + run_step. rewrite mul_dims_total by lia. rewrite bind_Ok_l. run_step.
        split; [f_equal; apply pstate_ext; closed_form; pointwise | closed_form].
    - pose proof (reshapedRank_not_blocked attrs Hb) as Hn3. fold n in Hn3.
      destruct (isChannelsLastLayout (layoutType attrs)) eqn:Hcl'.
      + specialize (Hcl eq_refl).
        destruct (decide (axis attrs = 1)); [|destruct (decide (axis attrs > 1))].
        * destruct (bool_decide (spatialRank attrs = 0)) eqn:Hsr0;
            [apply bool_decide_eq_true in Hsr0; lia|].
          run_step.
          split; [f_equal; apply pstate_ext; closed_form; pointwise | closed_form].
        * destruct (bool_decide (spatialRank attrs = 0)) eqn:Hsr0;
            (destruct (channels_last_loop (srcDims attrs) n zero zero zero X X
                      (dataSize attrs) (axis attrs) ltac:(lia) ltac:(lia)) as [Hloop _];
             rewrite Hloop by lia; rewrite bind_Ok_l; run_step;
             (split; [f_equal; apply pstate_ext; closed_form; pointwise | closed_form])).
        * destruct (bool_decide (spatialRank attrs = 0)) eqn:Hsr0;
            [apply bool_decide_eq_true in Hsr0; lia|].
          run_step.
          split; [f_equal; apply pstate_ext; closed_form; pointwise | closed_form].
      + destruct (bool_decide (spatialRank attrs = 0)) eqn:Hsr0;
          (destruct (planar_loop (srcDims attrs) n zero zero zero X X
                      (dataSize attrs) ltac:(lia) (axis attrs) ltac:(lia)) as [Hloop _];
           rewrite Hloop by lia; rewrite bind_Ok_l; run_step;
           (split; [f_equal; apply pstate_ext; closed_form; pointwise | closed_form])). }
  rewrite bind_Ok_l. cbv zeta. rewrite order_pstate, src_block_dims_pstate.
  change (mkParams (tab _ n) _ _ _ _ _)
    with (pstate n (closed_dims attrs) zero (closed_order attrs) (seqZ 0 n) (seqZ 0 n)
            (dataSize attrs)).
  rewrite finish_closed; [done | lia |].
  intros i Hi. apply closed_order_range; lia.
Qed.

(** ** The built parameters *)

Lemma builds_buildParams (attrs : ShuffleChannelsAttributes) (p : PermuteParams) :
  builds attrs p <-> buildParams attrs = Ok p.
Proof.
  unfold builds, ShuffleChannelsExecutor_new. split.
  - intros H. apply bind_Ok in H as (p' & Hp & [= ->]). done.
  - intros ->. done.
Qed.

Lemma wellFormed_builds (attrs : ShuffleChannelsAttributes) :
  wellFormed attrs -> builds attrs (closedParams attrs).
Proof. intros H. apply builds_buildParams. by apply buildParams_closed. Qed.

Lemma lookup_entry (v : list Z) (i : Z) :
  0 <= i < Z.of_nat (length v) -> v !! Z.to_nat i = Some (entry v i).
Proof.
  intros H. unfold entry.
  destruct (lookup_lt_is_Some_2 v (Z.to_nat i)) as [x ->]; [lia | done].
Qed.

(** Outside a blocked layout with the channel axis shuffled, the order swaps
    the two halves of the split axis and fixes every other position. *)
Lemma closed_order_swap (attrs : ShuffleChannelsAttributes) (k : Z) :
  0 <= axis attrs ->
  0 <= decomposedAxis attrs -> decomposedAxis attrs + 1 < reshapedRank attrs ->
  ~ (isBlockedLayout (layoutType attrs) = true /\ axis attrs = 1) ->
  0 <= k < reshapedRank attrs ->
  closed_order attrs k
  = if decide (k = decomposedAxis attrs) then decomposedAxis attrs + 1
    else if decide (k = decomposedAxis attrs + 1) then decomposedAxis attrs
    else k.
Proof.
  unfold closed_order, decomposedAxis, reshapedRank, int_of_bool, channelDim.
  destruct (isBlockedLayout (layoutType attrs)),
           (isChannelsLastLayout (layoutType attrs)),
           (bool_decide (spatialRank attrs = 0));
    cbn [negb andb]; cbv beta iota zeta;
    intros Ha Hd1 Hd2 Hne Hk;
    try (assert (axis attrs <> 1) by (intros ?; by apply Hne));
    revert Hd1 Hd2 Hk;
    unfold decomposed_order, copied_order, channels_last_order, upd, zero;
    repeat case_decide; lia.
Qed.

Lemma tab_swap_Permutation (f : Z -> Z) (n d : Z) :
  0 <= d -> d + 1 < n ->
  (forall k, 0 <= k < n ->
     f k = if decide (k = d) then d + 1 else if decide (k = d + 1) then d else k) ->
  tab f n ≡ₚ seqZ 0 n.
Proof.
  intros Hd Hn Hf. unfold tab.
  assert (seqZ d 2 = [d; d + 1]) as Htwo.
  { change (seqZ d 2) with [d; 1 + d]. do 2 f_equal. lia. }
  replace n with (d + (2 + (n - d - 2))) at 1 2 by lia.
  rewrite seqZ_app by lia. rewrite (seqZ_app (0 + d)) by lia.
  replace (0 + d) with d by lia. rewrite Htwo.
  rewrite !fmap_app. simpl.
  rewrite (list_fmap_ext f id (seqZ 0 d)), list_fmap_id.
  2:{ intros i x Hx. apply lookup_seqZ in Hx as [-> ?]. simpl.
      rewrite Hf by lia. repeat case_decide; lia. }
  rewrite (list_fmap_ext f id (seqZ _ (n - d - 2))), list_fmap_id.
  2:{ intros i x Hx. apply lookup_seqZ in Hx as [-> ?]. simpl.
      rewrite Hf by lia. repeat case_decide; lia. }
  rewrite !Hf by lia. rewrite decide_True by lia.
  rewrite decide_False by lia. rewrite decide_True by lia.
  apply Permutation_app_head. apply perm_swap.
Qed.

Lemma builds_closed (attrs : ShuffleChannelsAttributes) (p : PermuteParams) :
  builds attrs p ->
  p = closedParams attrs
  /\ 0 <= axis attrs < Z.of_nat (length (srcDims attrs))
  /\ group attrs <> 0
  /\ (0 <= decomposedAxis attrs /\ decomposedAxis attrs + 1 < reshapedRank attrs)
  /\ (forall i, 0 <= i < reshapedRank attrs ->
        0 <= closed_order attrs i < reshapedRank attrs).
Proof.
  intros H. apply builds_buildParams, buildParams_Ok in H. tauto.
Qed.

Lemma closed_dims_decomposed (attrs : ShuffleChannelsAttributes) :
  0 <= axis attrs ->
  closed_dims attrs (decomposedAxis attrs) = group attrs
  /\ closed_dims attrs (decomposedAxis attrs + 1) = groupSize_of attrs.
Proof.
  unfold closed_dims, decomposedAxis, channelDim.
  destruct (isBlockedLayout (layoutType attrs)),
           (isChannelsLastLayout (layoutType attrs)),
           (bool_decide (spatialRank attrs = 0));
    cbv beta iota zeta; intros Ha;
    unfold decomposed_dims, copied_dims, channels_last_dims, upd, zero;
    repeat case_decide; try lia; done.
Qed.

Lemma closed_channels_last (attrs : ShuffleChannelsAttributes) :
  layoutType attrs = nspc -> axis attrs > channelDim ->
  let n := reshapedRank attrs in
  closed_order attrs (n - 1) = n - 1
  /\ closed_dims attrs (n - 1) = entry (srcDims attrs) 1
  /\ forall i, 2 <= i < axis attrs ->
       closed_order attrs (i - 1) = i - 1
       /\ closed_dims attrs (i - 1) = entry (srcDims attrs) i.
Proof.
  unfold closed_order, closed_dims, reshapedRank, int_of_bool, channelDim.
  intros -> Ha.
  change (isBlockedLayout nspc) with false.
  change (isChannelsLastLayout nspc) with true.
  cbv beta iota zeta. rewrite decide_False by lia. rewrite decide_True by lia.
  destruct (bool_decide (spatialRank attrs = 0));
    cbn [negb andb]; cbv beta iota zeta;
    unfold decomposed_order, decomposed_dims, channels_last_order, channels_last_dims,
      upd, zero;
    (split; [|split; [|intros i Hi; split]]);
    repeat case_decide; try lia; try done; f_equal; lia.
Qed.

(** *** What a completed construction needs *)

Lemma foldM_Ok_elem {T A : Type} (body : A -> T -> outcome T) (l : list A) (s r : T) :
  foldM body l s = Ok r ->
  forall i, i ∈ l -> exists s1 s2, body i s1 = Ok s2.
Proof.
  revert s. induction l as [|j l IH]; intros s H i Hi; [by apply elem_of_nil in Hi|].
  simpl in H. apply bind_Ok in H as (s' & Hj & H).
  apply elem_of_cons in Hi as [->|Hi]; [by eexists _, _ | by eapply IH].
Qed.

Lemma mul_dims_Ok_range (dims : list Z) (lo hi acc r : Z) :
  mul_dims dims lo hi acc = Ok r -> 0 <= lo -> lo < hi ->
  hi <= Z.of_nat (length dims).
Proof.
  intros H Hlo Hhi. unfold mul_dims, for_loop in H.
  destruct (foldM_Ok_elem _ _ _ _ H (hi - 1)) as (s1 & s2 & Hs).
  { apply elem_of_seqZ. lia. }
  apply bind_Ok in Hs as (x & Hx & _). apply vec_get_entry in Hx. lia.
Qed.

Lemma mul_dims_total_or_empty (dims : list Z) (lo hi acc : Z) :
  0 <= lo -> (lo < hi -> hi <= Z.of_nat (length dims)) ->
  mul_dims dims lo hi acc = Ok (value (mul_dims dims lo hi acc)).
Proof.
  intros Hlo Hhi.
  destruct (foldM_total (fun i acc => x ← vec_get dims i; Ok (size_t_mul acc x))
              (seqZ lo (hi - lo)) acc) as [r Hr].
  - intros i s Hi. apply elem_of_seqZ in Hi.
    rewrite vec_get_in_range by lia. by eexists.
  - unfold mul_dims, for_loop. by rewrite Hr.
Qed.

Lemma buildParams_accepted (attrs : ShuffleChannelsAttributes) :
  accepted attrs -> buildParams attrs = Ok (closedParams attrs).
Proof.
  intros (Hsupp & Hax & Hg & Hspat & Hblk & Hcl).
  pose proof (reshapedRank_bounds attrs) as Hn.
  unfold buildParams. rewrite Hsupp. cbv beta iota zeta. simpl negb. cbv iota.
  unfold vec_resize. rewrite decide_True by lia. rewrite !bind_Ok_l.
  rewrite replicate_tab.
  rewrite (vec_get_in_range (srcDims attrs) (axis attrs)) by lia. rewrite bind_Ok_l.
  unfold size_t_div. rewrite decide_False by done. rewrite bind_Ok_l.
  fold (groupSize_of attrs).
  assert ((if bool_decide (spatialRank attrs = 0) then Ok 1
           else mul_dims (srcDims attrs) (axis attrs + 1) (dataRank attrs) 1)
          = Ok (spatialShapeSize_of attrs)) as ->.
  { unfold spatialShapeSize_of. case_bool_decide; [done|].
    apply mul_dims_total; [lia | by apply Hspat]. }
  rewrite bind_Ok_l.
  set (n := reshapedRank attrs) in *.
  set (X := tab zero n).
  change (mkParams (tab _ n) _ _ _ _ _)
    with (pstate n zero zero zero X X (dataSize attrs)).
  match goal with
  | |- ?branch ≫= _ = _ =>
      assert (branch = Ok (pstate n (closed_dims attrs) zero (closed_order attrs) X X
                             (dataSize attrs))
              /\ 0 <= decomposedAxis attrs /\ decomposedAxis attrs + 1 < n)
        as (-> & Hd1 & Hd2)
  end.
  { unfold channelDim in *.
    destruct (isBlockedLayout (layoutType attrs)) eqn:Hb.
    - pose proof (reshapedRank_blocked attrs Hb) as Hn3. fold n in Hn3.
      destruct (Hblk eq_refl) as (Hlen & Hgt & Hle).
      rewrite vec_back_value by lia. fold (blkSize_of attrs). rewrite bind_Ok_l.
      rewrite vec_get_in_range by lia. rewrite bind_Ok_l.
      destruct (decide (axis attrs > 1)).
      + destruct (blocked_loop (srcBlockedDims attrs) n zero zero zero X X
                    (dataSize attrs) ltac:(lia) (axis attrs) ltac:(lia)) as [Hloop _].
        rewrite Hloop by lia. rewrite bind_Ok_l. run_step.
        split; [f_equal; apply pstate_ext; closed_form; pointwise | closed_form].
      + run_step. rewrite mul_dims_total_or_empty by lia. rewrite bind_Ok_l. run_step.
        split; [f_equal; apply pstate_ext; closed_form; pointwise | closed_form].
    - pose proof (reshapedRank_not_blocked attrs Hb) as Hn3. fold n in Hn3.
      destruct (isChannelsLastLayout (layoutType attrs)) eqn:Hcl'.
      + specialize (Hcl eq_refl eq_refl).
        destruct (decide (axis attrs = 1)); [|destruct (decide (axis attrs > 1))].
        * destruct (bool_decide (spatialRank attrs = 0)) eqn:Hsr0;
            [apply bool_decide_eq_true in Hsr0; lia|].
          run_step.
          split; [f_equal; apply pstate_ext; closed_form; pointwise | closed_form].
        * destruct (bool_decide (spatialRank attrs = 0)) eqn:Hsr0;
            (destruct (channels_last_loop (srcDims attrs) n zero zero zero X X
                      (dataSize attrs) (axis attrs) ltac:(lia) ltac:(lia)) as [Hloop _];
             rewrite Hloop by lia; rewrite bind_Ok_l; run_step;
             (split; [f_equal; apply pstate_ext; closed_form; pointwise | closed_form])).
        * destruct (bool_decide (spatialRank attrs = 0)) eqn:Hsr0;
            [apply bool_decide_eq_true in Hsr0; lia|].
          run_step.
          split; [f_equal; apply pstate_ext; closed_form; pointwise | closed_form].
      + destruct (bool_decide (spatialRank attrs = 0)) eqn:Hsr0;
          (destruct (planar_loop (srcDims attrs) n zero zero zero X X
                      (dataSize attrs) ltac:(lia) (axis attrs) ltac:(lia)) as [Hloop _];
           rewrite Hloop by lia; rewrite bind_Ok_l; run_step;
           (split; [f_equal; apply pstate_ext; closed_form; pointwise | closed_form])). }
  rewrite bind_Ok_l. cbv zeta. rewrite order_pstate, src_block_dims_pstate.
  change (mkParams (tab _ n) _ _ _ _ _)
    with (pstate n (closed_dims attrs) zero (closed_order attrs) (seqZ 0 n) (seqZ 0 n)
            (dataSize attrs)).
  rewrite finish_closed; [done | lia |].
  intros i Hi. apply closed_order_range; lia.
Qed.

Lemma buildParams_Ok_accepted (attrs : ShuffleChannelsAttributes) (p : PermuteParams) :
  buildParams attrs = Ok p -> accepted attrs.
Proof.
  intros H. unfold buildParams in H.
  destruct (one_of (layoutType attrs) _) eqn:Hsupp; simpl in H; [|done].
  pose proof (reshapedRank_bounds attrs) as Hn.
  unfold vec_resize in H.
  destruct (decide (0 <= reshapedRank attrs)) as [Hn0|]; simpl in H; [|done].
  rewrite replicate_tab in H.
  apply bind_Ok in H as (extent & He & H). apply vec_get_entry in He as [-> Hax].
  apply bind_Ok in H as (gs & Hgs & H).
  unfold size_t_div in Hgs. destruct (decide (group attrs = 0)) as [|Hg]; [done|].
  injection Hgs as <-.
  apply bind_Ok in H as (sp & Hsp & H).
  assert (spatialRank attrs <> 0 ->
          dataRank attrs <= Z.of_nat (length (srcDims attrs))) as Hspat.
  { intros Hs. rewrite bool_decide_eq_false_2 in Hsp by done.
    destruct (decide (axis attrs + 1 < dataRank attrs)); [|lia].
    eapply mul_dims_Ok_range; [exact Hsp | lia | done]. }
  clear Hsp.
  apply bind_Ok in H as (p1 & Hbranch & _).
  set (n := reshapedRank attrs) in *.
  set (X := tab zero n).
  change (mkParams _ _ _ _ _ _)
    with (pstate n zero zero zero X X (dataSize attrs)) in Hbranch.
  split; [done|]. split; [done|]. split; [done|]. split; [done|].
  unfold channelDim in *.
  destruct (isBlockedLayout (layoutType attrs)) eqn:Hb.
  - split; [intros _ | done].
    pose proof (reshapedRank_blocked attrs Hb) as Hn3. fold n in Hn3.
    apply bind_Ok in Hbranch as (blk & Hblk & Hbranch).
    apply bind_Ok in Hbranch as (CB & HCB & Hbranch).
    apply vec_get_entry in HCB as [-> HCB].
    split; [lia|].
    destruct (decide (axis attrs > 1)).
    + apply bind_Ok in Hbranch as (p2 & Hloop & _).
      apply blocked_loop in Hloop as (-> & ? & ?); [|lia..].
      split; [done | lia].
    + split; [lia|]. intros _ Hrank.
      revert Hbranch. run_step. intros Hbranch.
      apply bind_Ok in Hbranch as (sp2 & Hsp2 & _).
      eapply mul_dims_Ok_range; [exact Hsp2 | lia | done].
  - split; [done|]. intros _ Hcl Ha1 Hs.
    pose proof (reshapedRank_not_blocked attrs Hb) as Hn3. fold n in Hn3.
    rewrite bool_decide_eq_true_2 in Hn3 by done.
    rewrite Hcl in Hbranch.
    destruct (decide (axis attrs = 1)); [|destruct (decide (axis attrs > 1)); [lia|]].
    + revert Hbranch; run_step.
    + revert Hbranch; run_step.
Qed.

(** *** Claim C1 *)

(** C1, as stated, fails: for the blocked layout nCsp8c with the channel axis
    shuffled (shape [1,16,2,2], axis 1, group 2, which divides 16) the
    constructor completes and the order it builds is [1,0,2,0], in which 0
    appears twice and 3 never. *)
Lemma order_not_permutation_blocked_channel_axis :
  let attrs := mkAttrs nCsp8c 4 1 2 2 4 [1; 16; 2; 2] [1; 2; 2; 2; 8] in
  wellFormed attrs
  /\ entry (srcDims attrs) (axis attrs) `mod` group attrs = 0
  /\ exists p, builds attrs p
       /\ order p = [1; 0; 2; 0]
       /\ ~ (order p ≡ₚ seqZ 0 (reshapedRank attrs)).
Proof.
  intros attrs. split; [|split].
  - unfold wellFormed, attrs, channelDim; simpl. repeat split; try done; lia.
  - reflexivity.
  - exists (mkParams [2; 8; 64; 0] [8; 2; 64; 2] [0; 1; 2; 3] [0; 1; 2; 3] [1; 0; 2; 0] 4).
    split; [vm_compute; reflexivity|]. split; [reflexivity|].
    cbn [order]. change (seqZ 0 (reshapedRank attrs)) with [0; 1; 2; 3].
    intros HP. assert (3 ∈ [1; 0; 2; 0]) as Hin.
    { rewrite HP. do 3 apply list_elem_of_further. apply list_elem_of_here. }
    repeat (apply elem_of_cons in Hin as [Hin|Hin]; [discriminate|]).
    by apply elem_of_nil in Hin.
Qed.

(** C1, amended: whenever the constructor completes on an attribute bundle
    that is not a blocked layout with the channel axis (axis 1) shuffled, a
    combination the node never offers, the order of the built parameters is a
    permutation of [0, reshapedRank). *)
Theorem order_is_permutation (attrs : ShuffleChannelsAttributes) (p : PermuteParams) :
  builds attrs p ->
  ~ (isBlockedLayout (layoutType attrs) = true /\ axis attrs = channelDim) ->
  order p ≡ₚ seqZ 0 (reshapedRank attrs).
Proof.
  intros H Hne. apply builds_closed in H as (-> & Ha & _ & [Hd1 Hd2] & _).
  unfold closedParams; rewrite order_pstate.
  apply (tab_swap_Permutation _ _ (decomposedAxis attrs)); [done..|].
  intros k Hk. apply closed_order_swap; [lia | done..].
Qed.

Lemma order_is_permutation_witness :
  [0; 2; 1; 3] ≡ₚ seqZ 0 (reshapedRank (mkAttrs ncsp 4 1 2 2 4 [1; 4; 2; 2] [1; 4; 2; 2])).
Proof.
  apply (order_is_permutation
           (mkAttrs ncsp 4 1 2 2 4 [1; 4; 2; 2] [1; 4; 2; 2])
           (mkParams [1; 2; 2; 4] [1; 2; 2; 4] [0; 1; 2; 3] [0; 1; 2; 3] [0; 2; 1; 3] 4)).
  - vm_compute; reflexivity.
  - simpl. intros [? ?]. discriminate.
Defined.

(** *** Claim C2 *)

(** C2, as stated, fails: with shape [1,5,2,2], axis 1 and group 2, which does
    not divide 5, the constructor completes and builds parameters (with the
    truncated group size 2); no error is raised. *)
Lemma nondivisible_group_builds :
  let attrs := mkAttrs ncsp 4 1 2 2 4 [1; 5; 2; 2] [1; 5; 2; 2] in
  entry (srcDims attrs) (axis attrs) `mod` group attrs <> 0
  /\ exists e, ShuffleChannelsExecutor_new attrs = Ok e
       /\ (jcp <$> permuteKernel e)
          = Some (mkParams [1; 2; 2; 4] [1; 2; 2; 4] [0; 1; 2; 3] [0; 1; 2; 3]
                           [0; 2; 1; 3] 4).
Proof.
  intros attrs. split; [done|].
  exists (mkExecutor (Some (mkKernel
            (mkParams [1; 2; 2; 4] [1; 2; 2; 4] [0; 1; 2; 3] [0; 1; 2; 3] [0; 2; 1; 3] 4)))).
  split; [vm_compute; reflexivity | reflexivity].
Qed.

(** C2, amended: the constructor does not check divisibility.  On every
    attribute bundle with a supported layout tag, [dataRank] the length of
    [srcDims], [0 <= axis < dataRank], [spatialRank = dataRank - axis - 1],
    [group > 0], for a blocked layout more than [dataRank] entries in
    [srcBlockedDims], and for the channels-last layout with [axis <= 1] a
    non-zero [spatialRank] (these are the conditions of [wellFormed]), whether
    or not the group count divides the extent of the shuffled axis, the
    constructor completes; the shuffled axis is split into the extents [group]
    and the truncated quotient [srcDims[axis] / group]. *)
Theorem construction_ignores_divisibility (attrs : ShuffleChannelsAttributes) :
  wellFormed attrs ->
  exists p, builds attrs p
    /\ src_block_dims p !! Z.to_nat (decomposedAxis attrs) = Some (group attrs)
    /\ src_block_dims p !! Z.to_nat (decomposedAxis attrs + 1)
       = Some (entry (srcDims attrs) (axis attrs) / group attrs).
Proof.
  intros Hwf. pose proof (wellFormed_builds attrs Hwf) as Hb.
  exists (closedParams attrs). split; [done|].
  apply builds_closed in Hb as (_ & Ha & _ & [Hd1 Hd2] & _).
  destruct (closed_dims_decomposed attrs) as [Hg Hgs]; [lia|].
  unfold closedParams. rewrite src_block_dims_pstate.
  rewrite !lookup_tab_Z by lia. by rewrite Hg, Hgs.
Qed.

Lemma construction_ignores_divisibility_witness :
  let attrs := mkAttrs ncsp 4 1 2 2 4 [1; 5; 2; 2] [1; 5; 2; 2] in
  exists p, builds attrs p
    /\ src_block_dims p !! 1%nat = Some 2
    /\ src_block_dims p !! 2%nat = Some (5 / 2).
Proof.
  apply (construction_ignores_divisibility
           (mkAttrs ncsp 4 1 2 2 4 [1; 5; 2; 2] [1; 5; 2; 2])).
  unfold wellFormed, channelDim; simpl. repeat split; try done; lia.
Defined.

(** The one exception the constructor raises itself is for a layout tag
    outside the four supported ones. *)
Lemma unsupported_layout_throws (attrs : ShuffleChannelsAttributes) :
  one_of (layoutType attrs) [nCsp16c; nCsp8c; nspc; ncsp] = false ->
  ShuffleChannelsExecutor_new attrs = Throws unsupported_layout_message.
Proof.
  intros H. unfold ShuffleChannelsExecutor_new, buildParams. by rewrite H.
Qed.

(** *** Claim C3 *)

(** C3, as stated, fails in its last part: for the layout nCsp8c with
    [spatialRank = 0], shape [4,16,2,4] and the last axis shuffled in 2
    groups, the plan has [axis + 3 = 6] positions, but the extra trailing
    position holds the block size 8, not 1; no position of the plan has
    extent 1. *)
Lemma blocked_trailing_extent_is_block_size :
  let attrs := mkAttrs nCsp8c 4 3 0 2 4 [4; 16; 2; 4] [4; 2; 2; 4; 8] in
  layoutType attrs = nCsp8c /\ spatialRank attrs = 0
  /\ exists p, builds attrs p
       /\ Z.of_nat (length (src_block_dims p)) = axis attrs + 3
       /\ src_block_dims p = [4; 2; 2; 2; 2; 8]
       /\ src_block_dims p !! Z.to_nat (axis attrs + 2) = Some 8
       /\ 1 ∉ src_block_dims p.
Proof.
  intros attrs. split; [done|]. split; [done|].
  exists (mkParams [4; 2; 2; 2; 2; 8] [4; 2; 2; 2; 2; 8] [0; 1; 2; 3; 4; 5]
            [0; 1; 2; 3; 4; 5] [0; 1; 2; 4; 3; 5] 4).
  split; [vm_compute; reflexivity|]. split; [done|]. split; [done|]. split; [done|].
  cbn [src_block_dims]. rewrite !elem_of_cons, elem_of_nil. lia.
Qed.

(** C3, amended: whenever the constructor completes, every vector of the
    built parameters has length
    [axis + 2 + (spatialRank != 0 ? 1 : 0) + (isBlocked && spatialRank == 0 ? 1 : 0)].
    For a blocked layout with [spatialRank = 0] this is [axis + 3], and the
    extra trailing position [axis + 2] is not an axis of extent 1: for
    [axis > 1] it stays in place and its source extent is
    [1 * srcBlockedDims.back()], the block size; for [axis = 0] and
    [dataRank <= 2] its source extent is
    [srcBlockedDims[1] * srcBlockedDims.back()]; for [axis = 1] it is never
    written and its source extent stays 0. *)
Theorem working_rank (attrs : ShuffleChannelsAttributes) (p : PermuteParams) :
  builds attrs p ->
  let r := axis attrs + 2
           + (if decide (spatialRank attrs <> 0) then 1 else 0)
           + (if decide (isBlockedLayout (layoutType attrs) = true
                         /\ spatialRank attrs = 0) then 1 else 0) in
  (Z.of_nat (length (order p)) = r
   /\ Z.of_nat (length (src_block_dims p)) = r
   /\ Z.of_nat (length (dst_block_dims p)) = r
   /\ Z.of_nat (length (src_block_order p)) = r
   /\ Z.of_nat (length (dst_block_order p)) = r)
  /\ (isBlockedLayout (layoutType attrs) = true -> spatialRank attrs = 0 ->
      r = axis attrs + 3
      /\ exists blk, last (srcBlockedDims attrs) = Some blk
         /\ (axis attrs > channelDim ->
             order p !! Z.to_nat (axis attrs + 2) = Some (axis attrs + 2)
             /\ src_block_dims p !! Z.to_nat (axis attrs + 2)
                = Some (size_t_mul 1 blk))
         /\ (axis attrs = 0 -> dataRank attrs <= 2 ->
             src_block_dims p !! Z.to_nat (axis attrs + 2)
             = Some (size_t_mul (entry (srcBlockedDims attrs) 1) blk))
         /\ (axis attrs = channelDim ->
             src_block_dims p !! Z.to_nat (axis attrs + 2) = Some 0)).
Proof.
  intros H r. pose proof H as Hacc.
  apply builds_buildParams, buildParams_Ok_accepted in Hacc.
  apply builds_closed in H as (-> & Ha & _ & _ & _).
  pose proof (reshapedRank_bounds attrs) as Hn.
  assert (reshapedRank attrs = r) as Hr.
  { unfold r, reshapedRank, int_of_bool.
    destruct (isBlockedLayout (layoutType attrs));
      repeat case_bool_decide; repeat case_decide; simpl; try lia; intuition. }
  unfold closedParams. rewrite order_pstate, src_block_dims_pstate.
  unfold pstate; simpl.
  rewrite !length_tab, !length_seqZ. split; [lia|].
  intros Hb Hsr.
  assert (r = axis attrs + 3) as Hr3.
  { unfold r. rewrite decide_False by lia. rewrite decide_True by done. lia. }
  split; [done|].
  destruct Hacc as (_ & _ & _ & _ & Hblk & _). destruct (Hblk Hb) as (Hlen & _).
  destruct (last (srcBlockedDims attrs)) as [blk|] eqn:Hlast.
  2: { apply last_None in Hlast. rewrite Hlast in Hlen. simpl in Hlen. lia. }
  exists blk. split; [done|].
  assert (blkSize_of attrs = blk) as Hblk'
    by (unfold blkSize_of, vec_back; by rewrite Hlast).
  assert (spatialShapeSize_of attrs = 1) as Hsp
    by (unfold spatialShapeSize_of; by rewrite bool_decide_eq_true_2).
  unfold channelDim.
  split; [|split].
  - intros Hgt. rewrite !lookup_tab_Z by lia.
    unfold closed_order, closed_dims, channelDim. rewrite Hb.
    rewrite !decide_True by done. cbv zeta. unfold upd.
    rewrite !decide_True by done. by rewrite Hsp, Hblk'.
  - intros H0 Hrank. rewrite lookup_tab_Z by lia.
    unfold closed_dims, channelDim. rewrite Hb.
    rewrite decide_False by lia. cbv zeta. unfold upd.
    rewrite decide_True by lia. rewrite Hblk'.
    unfold mul_dims, for_loop. rewrite seqZ_nil by lia. done.
  - intros H1. rewrite lookup_tab_Z by lia.
    unfold closed_dims, channelDim. rewrite Hb.
    rewrite decide_False by lia. cbv zeta.
    unfold decomposed_dims, upd, zero. by rewrite !decide_False by lia.
Qed.

Lemma working_rank_witness :
  let attrs := mkAttrs nCsp8c 4 3 0 2 4 [4; 16; 2; 2] [4; 2; 2; 2; 8] in
  let p := mkParams [4; 2; 2; 2; 1; 8] [4; 2; 2; 1; 2; 8] [0; 1; 2; 3; 4; 5]
                    [0; 1; 2; 3; 4; 5] [0; 1; 2; 4; 3; 5] 4 in
  builds attrs p
  /\ Z.of_nat (length (order p)) = axis attrs + 3
  /\ exists blk, last (srcBlockedDims attrs) = Some blk
       /\ order p !! Z.to_nat (axis attrs + 2) = Some (axis attrs + 2)
       /\ src_block_dims p !! Z.to_nat (axis attrs + 2) = Some (size_t_mul 1 blk).
Proof.
  intros attrs p.
  assert (builds attrs p) as H by (vm_compute; reflexivity).
  split; [exact H|].
  destruct (working_rank attrs p H) as [(Hlen & _) Hextra].
  destruct (Hextra eq_refl eq_refl) as (Hr & blk & Hlast & Hgt & _).
  split; [by rewrite Hlen, Hr|].
  exists blk. split; [exact Hlast|]. apply Hgt. unfold channelDim; simpl; lia.
Defined.

(** *** Claim C6 *)

(** C6: whenever the constructor completes, for every index [i] below the
    reshaped rank, [dst_block_dims[i] = src_block_dims[order[i]]]. *)
Theorem dst_block_dims_follow_order (attrs : ShuffleChannelsAttributes)
    (p : PermuteParams) (i : Z) :
  builds attrs p ->
  0 <= i < reshapedRank attrs ->
  exists o x, order p !! Z.to_nat i = Some o
    /\ 0 <= o
    /\ src_block_dims p !! Z.to_nat o = Some x
    /\ dst_block_dims p !! Z.to_nat i = Some x.
Proof.
  intros H Hi. apply builds_closed in H as (-> & _ & _ & _ & Hr).
  specialize (Hr i Hi).
  exists (closed_order attrs i), (closed_dims attrs (closed_order attrs i)).
  unfold closedParams, pstate; simpl.
  rewrite !lookup_tab_Z by lia. repeat split; lia.
Qed.

Lemma dst_block_dims_follow_order_witness :
  let attrs := mkAttrs nspc 4 2 1 2 4 [1; 4; 2; 3] [1; 2; 3; 4] in
  let p := mkParams [1; 2; 1; 3; 4] [1; 1; 2; 3; 4] [0; 1; 2; 3; 4] [0; 1; 2; 3; 4]
                    [0; 2; 1; 3; 4] 4 in
  exists o x, order p !! 1%nat = Some o
    /\ 0 <= o
    /\ src_block_dims p !! Z.to_nat o = Some x
    /\ dst_block_dims p !! 1%nat = Some x.
Proof.
  intros attrs p.
  apply (dst_block_dims_follow_order attrs p 1);
    [vm_compute; reflexivity | vm_compute; by split].
Defined.

(** *** Claim C7 *)

(** C7: whenever the constructor completes on a channels-last bundle with the
    shuffled axis behind the channel axis, the last reshaped position is fixed
    by the order and holds the channel extent [srcDims[1]], and each axis [i]
    with [2 <= i < axis] sits one position lower, at [i - 1]. *)
Theorem channels_last_channel_goes_last (attrs : ShuffleChannelsAttributes)
    (p : PermuteParams) :
  builds attrs p ->
  layoutType attrs = nspc ->
  axis attrs > channelDim ->
  let n := reshapedRank attrs in
  order p !! Z.to_nat (n - 1) = Some (n - 1)
  /\ (exists c, srcDims attrs !! 1%nat = Some c
        /\ src_block_dims p !! Z.to_nat (n - 1) = Some c)
  /\ forall i, 2 <= i < axis attrs ->
       order p !! Z.to_nat (i - 1) = Some (i - 1)
       /\ exists x, srcDims attrs !! Z.to_nat i = Some x
            /\ src_block_dims p !! Z.to_nat (i - 1) = Some x.
Proof.
  intros H Hl Hax n. apply builds_closed in H as (-> & Ha & _ & _ & _).
  pose proof (reshapedRank_bounds attrs) as Hn. fold n in Hn.
  destruct (closed_channels_last attrs Hl Hax) as (Ho & Hc & Hpre). fold n in Ho, Hc.
  unfold channelDim in *.
  unfold closedParams. rewrite order_pstate, src_block_dims_pstate. fold n.
  split; [|split].
  - rewrite lookup_tab_Z by lia. by rewrite Ho.
  - exists (entry (srcDims attrs) 1). split.
    + apply (lookup_entry (srcDims attrs) 1). lia.
    + rewrite lookup_tab_Z by lia. by rewrite Hc.
  - intros i Hi. destruct (Hpre i Hi) as [Hoi Hdi]. split.
    + rewrite lookup_tab_Z by lia. by rewrite Hoi.
    + exists (entry (srcDims attrs) i). split.
      * apply lookup_entry. lia.
      * rewrite lookup_tab_Z by lia. by rewrite Hdi.
Qed.

Lemma channels_last_channel_goes_last_witness :
  let attrs := mkAttrs nspc 5 3 1 3 4 [1; 4; 2; 3; 5] [1; 2; 3; 5; 4] in
  let p := mkParams [1; 2; 3; 1; 5; 4] [1; 2; 1; 3; 5; 4] [0; 1; 2; 3; 4; 5]
                    [0; 1; 2; 3; 4; 5] [0; 1; 3; 2; 4; 5] 4 in
  order p !! 5%nat = Some 5
  /\ (exists c, srcDims attrs !! 1%nat = Some c /\ src_block_dims p !! 5%nat = Some c)
  /\ forall i, 2 <= i < 3 ->
       order p !! Z.to_nat (i - 1) = Some (i - 1)
       /\ exists x, srcDims attrs !! Z.to_nat i = Some x
            /\ src_block_dims p !! Z.to_nat (i - 1) = Some x.
Proof.
  intros attrs p.
  apply (channels_last_channel_goes_last attrs p);
    [vm_compute; reflexivity | reflexivity | ].
  unfold channelDim; simpl; lia.
Defined.

(** *** Claim C8 *)

(** C8: a node constructed with axis -1 on a rank-4 input holds the same
    attributes, with the normalised axis 3, as one constructed with axis 3,
    and hence ends up with the same executor whatever the source memory. *)
Theorem negative_axis_is_normalized (attrs0 : ShuffleChannelsAttributes)
    (op_group : Z) (m : MemoryDesc) :
  axis (node_attrs attrs0 op_group (-1) 4) = 3
  /\ node_attrs attrs0 op_group (-1) 4 = node_attrs attrs0 op_group 3 4
  /\ node_executor attrs0 op_group (-1) 4 m = node_executor attrs0 op_group 3 4 m.
Proof.
  assert (node_attrs attrs0 op_group (-1) 4 = node_attrs attrs0 op_group 3 4) as Heq
    by reflexivity.
  split; [reflexivity|]. split; [exact Heq|].
  unfold node_executor. by rewrite Heq.
Qed.

(** *** Claim C10 *)

(** C10: on an executor holding a kernel, [exec] runs the kernel with the
    batch [MB] when [MB > 0] and with the plan's own axis-0 extent otherwise;
    in particular [MB = 0] behaves like a negative [MB], whereas a kernel run
    with the batch 0 would copy nothing. *)
Theorem batch_override_iff_positive (e : ShuffleChannelsExecutor) (k : PermuteKernel)
    (src : list byte) (MB : Z) :
  permuteKernel e = Some k ->
  exec e src MB
  = Ok (PermuteKernel_execute_mb k src
          (if decide (MB > 0) then MB
           else default 0 (head (dst_block_dims (jcp k)))))
  /\ exec e src 0 = exec e src (-1)
  /\ PermuteKernel_execute_mb k src 0 = [].
Proof.
  intros Hk. unfold exec. rewrite Hk. split; [by case_decide|]. split; [done|].
  unfold PermuteKernel_execute_mb. cbn [multi_indices].
  by rewrite seqZ_nil.
Qed.

Lemma batch_override_iff_positive_witness :
  let k := mkKernel (mkParams [2; 2] [2; 2] [0; 1] [0; 1] [1; 0] 1) in
  let e := mkExecutor (Some k) in
  let src := ["a"; "b"; "c"; "d"]%byte in
  exec e src 0 = Ok ["a"; "c"; "b"; "d"]%byte
  /\ exec e src 1 = Ok ["a"; "c"]%byte
  /\ PermuteKernel_execute_mb k src 0 = [].
Proof.
  intros k e src.
  destruct (batch_override_iff_positive e k src 0 eq_refl) as (H0 & _ & Hnone).
  destruct (batch_override_iff_positive e k src 1 eq_refl) as (H1 & _).
  split; [rewrite H0; vm_compute; reflexivity|].
  split; [rewrite H1; vm_compute; reflexivity | exact Hnone].
Defined.

(** *** Claim C4 *)

Ltac explode_16 l :=
  do 16 (destruct l as [|? l]; [discriminate|]); destruct l; [|discriminate].

(** C4: for the planar layout, shape [1,4,2,2], axis 1, group 2 and 4-byte
    elements the constructor completes, and running the executor on a buffer
    made of the four channels [c0 c1 c2 c3] (16 bytes each) yields
    [c0 c2 c1 c3], each channel unchanged.  This holds without a batch
    override and with the batch 1 of the shape. *)
Theorem shuffle_1x4x2x2_by_2 (c0 c1 c2 c3 : list byte) :
  length c0 = 16%nat -> length c1 = 16%nat ->
  length c2 = 16%nat -> length c3 = 16%nat ->
  exists e,
    ShuffleChannelsExecutor_new (mkAttrs ncsp 4 1 2 2 4 [1; 4; 2; 2] [1; 4; 2; 2]) = Ok e
    /\ exec e (c0 ++ c1 ++ c2 ++ c3) (-1) = Ok (c0 ++ c2 ++ c1 ++ c3)
    /\ exec e (c0 ++ c1 ++ c2 ++ c3) 1 = Ok (c0 ++ c2 ++ c1 ++ c3).
Proof.
  intros H0 H1 H2 H3.
  exists (mkExecutor (Some (mkKernel
            (mkParams [1; 2; 2; 4] [1; 2; 2; 4] [0; 1; 2; 3] [0; 1; 2; 3] [0; 2; 1; 3] 4)))).
  split; [vm_compute; reflexivity|].
  explode_16 c0. explode_16 c1. explode_16 c2. explode_16 c3.
  split; vm_compute; reflexivity.
Qed.

Lemma shuffle_1x4x2x2_by_2_witness :
  let c0 := channel_of_words x00 x01 x02 x03 in
  let c1 := channel_of_words x04 x05 x06 x07 in
  let c2 := channel_of_words x08 x09 x0a x0b in
  let c3 := channel_of_words x0c x0d x0e x0f in
  exists e,
    ShuffleChannelsExecutor_new (mkAttrs ncsp 4 1 2 2 4 [1; 4; 2; 2] [1; 4; 2; 2]) = Ok e
    /\ exec e (c0 ++ c1 ++ c2 ++ c3) (-1) = Ok (c0 ++ c2 ++ c1 ++ c3)
    /\ exec e (c0 ++ c1 ++ c2 ++ c3) 1 = Ok (c0 ++ c2 ++ c1 ++ c3).
Proof.
  intros c0 c1 c2 c3.
  apply (shuffle_1x4x2x2_by_2 c0 c1 c2 c3); reflexivity.
Defined.

(** ** The kernel on planar plans *)

Lemma bind_bind {A B C : Type} (f : A -> list B) (g : B -> list C) (l : list A) :
  (l ≫= f) ≫= g = l ≫= (fun x => f x ≫= g).
Proof.
  induction l as [|x l IH]; [done|].
  rewrite !bind_cons, bind_app. by rewrite IH.
Qed.

Lemma bind_ext_in {A B : Type} (f g : A -> list B) (l : list A) :
  (forall x, x ∈ l -> f x = g x) -> l ≫= f = l ≫= g.
Proof.
  induction l as [|x l IH]; intros H; [done|].
  rewrite !bind_cons. rewrite H by left. rewrite IH; [done|].
  intros y Hy. apply H. by right.
Qed.

Lemma source_position_dot (p : PermuteParams) (idx : list Z) :
  source_position p idx = dotZ idx (permuted_strides p).
Proof.
  unfold source_position, dotZ, permuted_strides. by rewrite zip_with_fmap_r.
Qed.

Lemma dotZ_nil_r (idx : list Z) : dotZ idx [] = 0.
Proof. by destruct idx. Qed.

Lemma gather_spec (n : Z) (buf : list byte) (dims pstr : list Z) (base : Z) :
  (idx ← multi_indices dims; element n buf (base + dotZ idx pstr))
  = gather n buf dims pstr base.
Proof.
  revert pstr base. induction dims as [|d dims IH]; intros pstr base.
  - simpl. rewrite app_nil_r. unfold dotZ; simpl. by rewrite Z.add_0_r.
  - cbn [multi_indices gather]. rewrite bind_bind.
    apply bind_ext_in. intros i _. rewrite list_fmap_bind.
    rewrite <- IH. apply bind_ext_in. intros idx _. simpl.
    destruct pstr as [|t pstr]; simpl.
    + rewrite !dotZ_nil_r. f_equal. lia.
    + unfold dotZ; simpl. f_equal. lia.
Qed.

Lemma execute_gather (k : PermuteKernel) (src : list byte) (mb : Z) :
  PermuteKernel_execute_mb k src mb
  = gather (data_size (jcp k)) src (mb :: tail (dst_block_dims (jcp k)))
           (permuted_strides (jcp k)) 0.
Proof.
  unfold PermuteKernel_execute_mb. rewrite <- gather_spec.
  apply bind_ext_in. intros idx _. by rewrite source_position_dot.
Qed.

Lemma seqZ_shift (a m : Z) : seqZ a m = Z.add a <$> seqZ 0 m.
Proof. rewrite fmap_add_seqZ. f_equal. lia. Qed.

Lemma seqZ_mul_split {B : Type} (F : Z -> list B) (d m : Z) :
  0 <= d -> 0 <= m ->
  (q ← seqZ 0 (d * m); F q) = i ← seqZ 0 d; r ← seqZ 0 m; F (i * m + r).
Proof.
  intros Hd Hm. rewrite <- (Z2Nat.id d) by done.
  induction (Z.to_nat d) as [|n IH].
  - done.
  - rewrite seqZ_S, bind_app, <- IH. simpl.
    replace (Z.of_nat (S n) * m) with (Z.of_nat n * m + m) by lia.
    rewrite seqZ_app by lia. rewrite bind_app. f_equal.
    rewrite app_nil_r. rewrite (seqZ_shift (0 + _)), list_fmap_bind.
    apply bind_ext_in. intros r _. simpl. f_equal.
Qed.

Lemma product_nonneg (P : list Z) : Forall (fun d => 0 <= d) P -> 0 <= product P.
Proof.
  induction 1 as [|d P Hd _ IH]; simpl; [lia|]. by apply Z.mul_nonneg_nonneg.
Qed.

Lemma gather_prefix (n : Z) (buf : list byte) (P D T : list Z) (M base : Z) :
  Forall (fun d => 0 <= d) P ->
  gather n buf (P ++ D) (((fun t => t * M) <$> strides P) ++ T) base
  = q ← seqZ 0 (product P); gather n buf D T (base + q * M).
Proof.
  intros HP. revert base. induction HP as [|d P Hd HP IH]; intros base.
  - simpl. rewrite app_nil_r. f_equal. lia.
  - cbn [app strides fmap list_fmap gather tail head default product foldr].
    fold (product P).
    rewrite seqZ_mul_split by (try done; by apply product_nonneg).
    apply bind_ext_in. intros i _. rewrite IH.
    apply bind_ext_in. intros q _. f_equal. unfold id. ring.
Qed.

Lemma block_run (n : Z) (buf : list byte) (b s : Z) :
  0 <= n -> 0 <= b -> 0 <= s ->
  (t ← seqZ 0 s; element n buf (b + t))
  = take (Z.to_nat (n * s)) (drop (Z.to_nat (b * n)) buf).
Proof.
  intros Hn Hb Hs. rewrite <- (Z2Nat.id s) by done.
  induction (Z.to_nat s) as [|m IH].
  - simpl. by rewrite Z.mul_0_r.
  - rewrite seqZ_S, bind_app, IH. simpl. rewrite app_nil_r.
    unfold element.
    replace (Z.to_nat ((b + (0 + Z.of_nat m)) * n))
      with (Z.to_nat (b * n) + Z.to_nat (n * Z.of_nat m))%nat by lia.
    rewrite <- drop_drop, take_take_drop. f_equal. lia.
Qed.

Local Close Scope Z_scope.

Lemma length_block (L : nat) (buf : list byte) (j : nat) :
  (j + 1) * L <= length buf -> length (block L buf j) = L.
Proof.
  intros H. unfold block. rewrite length_take, length_drop. lia.
Qed.

Lemma length_bind_uniform {A : Type} (F : nat -> list A) (n K : nat) :
  (forall i, i < n -> length (F i) = K) -> length (seq 0 n ≫= F) = n * K.
Proof.
  induction n as [|n IH]; intros H; [done|].
  rewrite seq_S, bind_app, length_app, IH by (intros; apply H; lia).
  simpl. rewrite app_nil_r, H by lia. lia.
Qed.

Lemma block_of_concat {A : Type} (F : nat -> list A) (n K j r m : nat) :
  (forall i, i < n -> length (F i) = K) -> j < n -> r + m <= K ->
  take m (drop (j * K + r) (seq 0 n ≫= F)) = take m (drop r (F j)).
Proof.
  induction n as [|n IH]; intros HF Hj Hr; [lia|].
  rewrite seq_S, bind_app. simpl. rewrite app_nil_r.
  pose proof (length_bind_uniform F n K) as Hlen.
  assert (length (seq 0 n ≫= F) = n * K) as HA by (apply Hlen; intros; apply HF; lia).
  destruct (decide (j = n)) as [->|Hne].
  - rewrite drop_app_ge by lia. rewrite HA. f_equal. f_equal. lia.
  - assert (j * K + K <= n * K) by nia.
    rewrite drop_app_le by lia. rewrite take_app_le.
    + apply IH; [intros; apply HF; lia | lia | lia].
    + rewrite length_drop. lia.
Qed.

Lemma seq_mul_split {B : Type} (G : nat -> list B) (n m : nat) :
  (seq 0 (n * m) ≫= G) = q ← seq 0 n; r ← seq 0 m; G (q * m + r).
Proof.
  induction n as [|n IH]; [done|].
  rewrite seq_S, bind_app, <- IH. simpl.
  replace (m + n * m) with (n * m + m) by lia.
  rewrite seq_app, bind_app. f_equal. rewrite app_nil_r.
  replace (seq (0 + n * m) m) with (Nat.add (n * m) <$> seq 0 m)
    by (rewrite fmap_add_seq; f_equal; lia).
  rewrite list_fmap_bind. done.
Qed.

Lemma concat_blocks (L : nat) (buf : list byte) (N : nat) :
  (seq 0 N ≫= block L buf) = take (N * L) buf.
Proof.
  induction N as [|N IH]; [done|].
  rewrite seq_S, bind_app, IH. simpl. rewrite app_nil_r. unfold block.
  rewrite take_take_drop. f_equal. lia.
Qed.

Lemma block_index_bound (q x y nP ng nh L : nat) :
  q < nP -> x < ng -> y < nh ->
  ((q * ng + x) * nh + y + 1) * L <= nP * ng * nh * L.
Proof.
  intros Hq Hx Hy. apply Nat.mul_le_mono_r.
  assert (q * ng + x + 1 <= nP * ng) as H1.
  { transitivity ((q + 1) * ng); [lia|]. apply Nat.mul_le_mono_r. lia. }
  transitivity ((q * ng + x + 1) * nh); [lia|]. by apply Nat.mul_le_mono_r.
Qed.

Lemma block_offset_bound (y x nh ng L : nat) :
  y < nh -> x < ng -> y * (ng * L) + x * L + L <= nh * (ng * L).
Proof.
  intros Hy Hx.
  assert ((x + 1) * L <= ng * L) by (apply Nat.mul_le_mono_r; lia).
  assert ((y + 1) * (ng * L) <= nh * (ng * L)) by (apply Nat.mul_le_mono_r; lia).
  lia.
Qed.

Lemma transposeBlocks_length (L nP ng nh : nat) (buf : list byte) :
  length buf = nP * ng * nh * L ->
  length (transposeBlocks L nP ng nh buf) = nP * nh * ng * L.
Proof.
  intros Hlen. unfold transposeBlocks.
  rewrite (length_bind_uniform _ nP (nh * (ng * L))); [nia|].
  intros q Hq. apply length_bind_uniform. intros y Hy.
  apply length_bind_uniform. intros x Hx. apply length_block.
  rewrite Hlen. by apply block_index_bound.
Qed.

(** Transposing the [ng x nh] blocks of every slab and then the [nh x ng]
    blocks of the result gives the buffer back. *)
Lemma transposeBlocks_involutive (L nP ng nh : nat) (buf : list byte) :
  length buf = nP * ng * nh * L ->
  transposeBlocks L nP nh ng (transposeBlocks L nP ng nh buf) = buf.
Proof.
  intros Hlen.
  assert (forall q y x, q < nP -> y < nh -> x < ng ->
            length (block L buf ((q * ng + x) * nh + y)) = L) as Hblk.
  { intros q y x Hq Hy Hx. apply length_block.
    rewrite Hlen. by apply block_index_bound. }
  transitivity (q ← seq 0 nP; x ← seq 0 ng; y ← seq 0 nh;
                block L buf ((q * ng + x) * nh + y)).
  - unfold transposeBlocks at 1.
    apply bind_ext_in. intros q Hq. apply elem_of_seq in Hq.
    apply bind_ext_in. intros x Hx. apply elem_of_seq in Hx.
    apply bind_ext_in. intros y Hy. apply elem_of_seq in Hy.
    unfold block at 1. unfold transposeBlocks.
    replace (((q * nh + y) * ng + x) * L) with (q * (nh * (ng * L)) + (y * (ng * L) + x * L))
      by nia.
    rewrite (block_of_concat _ nP (nh * (ng * L)));
      [| |lia|apply block_offset_bound; lia].
    2:{ intros q' Hq'. apply length_bind_uniform. intros y' Hy'.
        apply length_bind_uniform. intros x' Hx'. apply Hblk; lia. }
    rewrite (block_of_concat _ nh (ng * L));
      [| |lia|assert ((x + 1) * L <= ng * L) by (apply Nat.mul_le_mono_r; lia); lia].
    2:{ intros y' Hy'. apply length_bind_uniform. intros x' Hx'. apply Hblk; lia. }
    replace (x * L) with (x * L + 0) by lia.
    rewrite (block_of_concat _ ng L); [| |lia|lia].
    2:{ intros x' Hx'. apply Hblk; lia. }
    rewrite drop_0. apply take_ge. rewrite Hblk by lia. done.
  - transitivity (seq 0 (nP * ng * nh) ≫= block L buf).
    + rewrite (seq_mul_split _ (nP * ng) nh), (seq_mul_split _ nP ng).
      done.
    + rewrite concat_blocks. apply take_ge. nia.
Qed.

Local Open Scope Z_scope.

Lemma tab_app (f : Z -> Z) (a c : Z) :
  0 <= a -> 0 <= c ->
  tab f (a + c) = tab f a ++ ((fun k => f (a + k)) <$> seqZ 0 c).
Proof.
  intros Ha Hc. unfold tab. rewrite seqZ_app by done. rewrite fmap_app. f_equal.
  rewrite (seqZ_shift (0 + a)). rewrite <- list_fmap_compose.
  apply list_fmap_ext. intros i x _. simpl. f_equal.
Qed.

Lemma planar_layout_flags (attrs : ShuffleChannelsAttributes) :
  layoutType attrs = ncsp ->
  isBlockedLayout (layoutType attrs) = false
  /\ isChannelsLastLayout (layoutType attrs) = false.
Proof. by intros ->. Qed.

Ltac eval_points :=
  unfold decomposed_dims, decomposed_order, copied_dims, copied_order, upd, zero;
  repeat case_decide; try lia; try done; repeat f_equal; try lia.

Lemma planar_lists (attrs : ShuffleChannelsAttributes) :
  layoutType attrs = ncsp -> 0 <= axis attrs ->
  let a := axis attrs in
  let g := group attrs in
  let gs := groupSize_of attrs in
  src_block_dims (closedParams attrs) = batch_dims attrs ++ [g; gs] ++ spatial_cells attrs
  /\ dst_block_dims (closedParams attrs) = batch_dims attrs ++ [gs; g] ++ spatial_cells attrs
  /\ order (closedParams attrs)
     = seqZ 0 a ++ [a + 1; a] ++ trailing (bool_decide (spatialRank attrs = 0)) (a + 2).
Proof.
  intros Hl Ha a g gs. destruct (planar_layout_flags attrs Hl) as [Hb Hc].
  unfold closedParams, pstate; simpl.
  rewrite (reshapedRank_not_blocked attrs Hb).
  unfold batch_dims, spatial_cells, trailing, closed_dims, closed_order. rewrite Hb, Hc.
  fold a g gs. rewrite seqZ_tab.
  destruct (bool_decide (spatialRank attrs = 0)); cbv beta iota zeta.
  - replace (a + 2 + 0) with (a + 2) by lia.
    rewrite !(tab_app _ a 2) by lia.
    change (seqZ 0 2) with [0; 1]. cbn [fmap list_fmap].
    repeat split; (f_equal; [apply tab_ext; pointwise | eval_points]).
  - replace (a + 2 + 1) with (a + 3) by lia.
    rewrite !(tab_app _ a 3) by lia.
    change (seqZ 0 3) with [0; 1; 2]. cbn [fmap list_fmap].
    repeat split; (f_equal; [apply tab_ext; pointwise | eval_points]).
Qed.

Lemma product_app (P D : list Z) : product (P ++ D) = product P * product D.
Proof.
  induction P as [|d P IH]; simpl.
  - fold (product D). by destruct (product D).
  - fold (product (P ++ D)) (product P). rewrite IH. ring.
Qed.

Lemma strides_app (P D : list Z) :
  strides (P ++ D) = ((fun t => t * product D) <$> strides P) ++ strides D.
Proof.
  induction P as [|d P IH]; [done|].
  cbn [app strides fmap list_fmap]. by rewrite product_app, IH.
Qed.

Lemma length_strides (l : list Z) : length (strides l) = length l.
Proof. induction l; simpl; auto. Qed.

Lemma lookup_prefix (A B : list Z) :
  (fun o => default 0 ((A ++ B) !! Z.to_nat o)) <$> seqZ 0 (Z.of_nat (length A)) = A.
Proof.
  apply list_eq. intros i. rewrite list_lookup_fmap.
  destruct (decide (i < length A)%nat) as [Hi|Hi].
  - rewrite lookup_seqZ_lt by lia. simpl.
    replace (Z.to_nat (0 + Z.of_nat i)) with i by lia.
    rewrite lookup_app_l by done.
    by destruct (lookup_lt_is_Some_2 A i Hi) as [x ->].
  - rewrite lookup_seqZ_ge by lia. simpl. symmetry. apply lookup_ge_None. lia.
Qed.

Lemma bind_seqZ_seq {B : Type} (F : Z -> list B) (n : Z) :
  seqZ 0 n ≫= F = seq 0 (Z.to_nat n) ≫= (fun i => F (Z.of_nat i)).
Proof.
  unfold seqZ. rewrite list_fmap_bind. apply bind_ext_in. intros i _. simpl.
  f_equal. lia.
Qed.

Lemma head_tail (l : list Z) : l <> [] -> default 0 (head l) :: tail l = l.
Proof. by destruct l. Qed.

Section planar_plan.
Variables (P : list Z) (g gs sp : Z) (last_axis : bool) (p : PermuteParams).
Hypothesis Hsrc : src_block_dims p = P ++ [g; gs] ++ trailing last_axis sp.
Hypothesis Hdst : dst_block_dims p = P ++ [gs; g] ++ trailing last_axis sp.
Hypothesis Horder :
  order p = seqZ 0 (Z.of_nat (length P))
            ++ [Z.of_nat (length P) + 1; Z.of_nat (length P)]
            ++ trailing last_axis (Z.of_nat (length P) + 2).

Lemma planar_permuted_strides :
  permuted_strides p
  = ((fun t => t * (g * (gs * product (trailing last_axis sp)))) <$> strides P)
    ++ [product (trailing last_axis sp); gs * product (trailing last_axis sp)]
    ++ strides (trailing last_axis sp).
Proof.
  unfold permuted_strides. rewrite Hsrc, Horder, strides_app.
  set (S' := trailing last_axis sp).
  set (a := Z.of_nat (length P)).
  set (A := (fun t => t * product ([g; gs] ++ S')) <$> strides P).
  assert (Z.of_nat (length A) = a) as HA.
  { unfold A, a. by rewrite length_fmap, length_strides. }
  rewrite fmap_app. f_equal.
  - rewrite <- HA, lookup_prefix. unfold A.
    apply list_fmap_ext. intros i t _. simpl. fold (product S'). done.
  - assert (forall c : nat, Z.to_nat (a + Z.of_nat c) = (length A + c)%nat) as Hidx
      by (intros c; lia).
    pose proof (Hidx 0%nat) as H0. pose proof (Hidx 1%nat) as H1.
    pose proof (Hidx 2%nat) as H2.
    replace (a + Z.of_nat 0) with a in H0 by lia.
    change (Z.of_nat 1) with 1 in H1. change (Z.of_nat 2) with 2 in H2.
    unfold S', trailing. destruct last_axis; cbn [fmap list_fmap app];
      rewrite ?H0, ?H1, ?H2, ?lookup_app_r, ?Nat.add_sub', ?Nat.sub_diag by lia;
      done.
Qed.

Hypothesis HP : Forall (fun d => 0 <= d) P.
Hypothesis Hg : 0 <= g.
Hypothesis Hgs : 0 <= gs.
Hypothesis Hsp : 0 <= sp.
Hypothesis Hds : 0 <= data_size p.

(** Without a batch override the kernel of a planar plan transposes, in every
    slab of the leading axes, the [g x gs] blocks of
    [data_size * product (trailing last_axis sp)] bytes. *)
Lemma planar_execute_blocks (src : list byte) :
  PermuteKernel_execute (mkKernel p) src
  = transposeBlocks (Z.to_nat (data_size p * product (trailing last_axis sp)))
                    (Z.to_nat (product P)) (Z.to_nat g) (Z.to_nat gs) src.
Proof.
  unfold PermuteKernel_execute. rewrite execute_gather. cbn [jcp].
  rewrite head_tail by (rewrite Hdst; by destruct P).
  rewrite Hdst, planar_permuted_strides, gather_prefix by done.
  set (S' := trailing last_axis sp).
  assert (0 <= product S') as HpS.
  { unfold S', trailing. destruct last_axis; simpl; lia. }
  assert (0 <= product P) as HpP by (by apply product_nonneg).
  unfold transposeBlocks. rewrite bind_seqZ_seq.
  apply bind_ext_in. intros q _.
  assert (forall b : Z, 0 <= b ->
            gather (data_size p) src S' (strides S') b
            = take (Z.to_nat (data_size p * product S'))
                   (drop (Z.to_nat (b * data_size p)) src)) as Htail.
  { intros b Hb. unfold S', trailing. destruct last_axis.
    - simpl. unfold element. do 2 f_equal. lia.
    - cbn [gather strides tail head default product foldr].
      rewrite Z.mul_1_r. rewrite <- block_run by done.
      apply bind_ext_in. intros t _. f_equal. unfold id. lia. }
  cbn [app gather tail head default]. rewrite bind_seqZ_seq.
  apply bind_ext_in. intros y _. rewrite bind_seqZ_seq.
  apply bind_ext_in. intros x _. unfold id.
  rewrite Htail by nia. unfold block. do 2 f_equal.
  assert (0 <= data_size p * product S') by (by apply Z.mul_nonneg_nonneg).
  apply Nat2Z.inj. rewrite Z2Nat.id by nia.
  repeat first [rewrite Nat2Z.inj_mul | rewrite Nat2Z.inj_add
               | rewrite Z2Nat.id by done].
  ring.
Qed.
End planar_plan.

Lemma entry_nonneg (v : list Z) (i : Z) :
  Forall (fun d => 0 <= d) v -> 0 <= entry v i.
Proof.
  intros H. unfold entry. destruct (v !! Z.to_nat i) as [x|] eqn:E; simpl; [|lia].
  by apply (Forall_lookup_1 _ _ _ _ H E).
Qed.

Lemma mul_dims_nonneg (dims : list Z) (lo hi acc : Z) :
  0 <= acc -> 0 <= value (mul_dims dims lo hi acc).
Proof.
  unfold mul_dims, for_loop. generalize (seqZ lo (hi - lo)) as l.
  intros l. revert acc. induction l as [|i l IH]; intros acc Hacc; simpl; [done|].
  destruct (vec_get dims i) as [x| |]; simpl; try lia.
  apply IH. unfold size_t_mul. apply Z.mod_pos_bound. done.
Qed.

Lemma spatialShapeSize_nonneg (attrs : ShuffleChannelsAttributes) :
  0 <= spatialShapeSize_of attrs.
Proof.
  unfold spatialShapeSize_of. case_bool_decide; [lia|]. by apply mul_dims_nonneg.
Qed.

Lemma batch_dims_nonneg (attrs : ShuffleChannelsAttributes) :
  Forall (fun d => 0 <= d) (srcDims attrs) ->
  Forall (fun d => 0 <= d) (batch_dims attrs).
Proof.
  intros H. unfold batch_dims, tab. apply Forall_fmap, Forall_forall.
  intros k _. simpl. by apply entry_nonneg.
Qed.

(** A planar plan, run without a batch override, is a block transposition. *)
Lemma planar_execute (attrs : ShuffleChannelsAttributes) (p : PermuteParams)
    (src : list byte) :
  layoutType attrs = ncsp ->
  builds attrs p ->
  Forall (fun d => 0 <= d) (srcDims attrs) ->
  0 <= group attrs -> 0 <= groupSize_of attrs -> 0 <= dataSize attrs ->
  PermuteKernel_execute (mkKernel p) src
  = transposeBlocks (Z.to_nat (dataSize attrs * product (spatial_cells attrs)))
      (Z.to_nat (product (batch_dims attrs)))
      (Z.to_nat (group attrs)) (Z.to_nat (groupSize_of attrs)) src.
Proof.
  intros Hl Hb Hdims Hg Hgs Hds.
  apply builds_closed in Hb as (-> & Ha & _ & _ & _).
  destruct (planar_lists attrs Hl) as (Hsrc & Hdst & Hord); [lia|].
  assert (Z.of_nat (length (batch_dims attrs)) = axis attrs) as Hlen.
  { unfold batch_dims. rewrite length_tab. lia. }
  rewrite <- Hlen in Hord.
  apply (planar_execute_blocks (batch_dims attrs) (group attrs) (groupSize_of attrs)
           (spatialShapeSize_of attrs) (bool_decide (spatialRank attrs = 0))
           (closedParams attrs) Hsrc Hdst Hord);
    [by apply batch_dims_nonneg | done | done | apply spatialShapeSize_nonneg | done].
Qed.

Lemma exec_own_batch (p : PermuteParams) (src : list byte) (MB : Z) :
  own_batch p MB ->
  exec (mkExecutor (Some (mkKernel p))) src MB
  = Ok (PermuteKernel_execute (mkKernel p) src).
Proof.
  intros [H| ->]; unfold exec; simpl; case_decide; try done; lia.
Qed.

(** *** Claim C5 *)

(** C5: for a planar bundle whose group count divides the extent of the
    shuffled axis, running the executor built for it and then the executor
    built for the inverse configuration (same shape and axis, group count
    [shape[axis] / group]) gives back the source buffer byte for byte.  The
    extents and the element size are [size_t] values, the buffer holds the
    elements of the source block, and neither run overrides the batch. *)
Theorem shuffle_round_trip (attrs : ShuffleChannelsAttributes) (p1 p2 : PermuteParams)
    (src : list byte) (MB1 MB2 : Z) :
  layoutType attrs = ncsp ->
  builds attrs p1 ->
  builds (inverse_configuration attrs) p2 ->
  0 < group attrs ->
  entry (srcDims attrs) (axis attrs) `mod` group attrs = 0 ->
  Forall (fun d => 0 <= d) (srcDims attrs) ->
  0 <= dataSize attrs ->
  Z.of_nat (length src) = dataSize attrs * product (src_block_dims p1) ->
  own_batch p1 MB1 -> own_batch p2 MB2 ->
  exists mid,
    exec (mkExecutor (Some (mkKernel p1))) src MB1 = Ok mid
    /\ exec (mkExecutor (Some (mkKernel p2))) mid MB2 = Ok src.
Proof.
  intros Hl Hb1 Hb2 Hg Hdiv Hdims Hds Hlen HMB1 HMB2.
  set (C := entry (srcDims attrs) (axis attrs)) in *.
  assert (0 <= C) as HC by (by apply entry_nonneg).
  assert (0 <= C / group attrs) as Hh by (apply Z.div_pos; lia).
  assert (C / group attrs <> 0) as Hh0.
  { apply builds_closed in Hb2 as (_ & _ & Hg2 & _). exact Hg2. }
  assert (groupSize_of (inverse_configuration attrs) = group attrs) as Hgs2.
  { unfold groupSize_of, inverse_configuration; simpl. fold C.
    assert (C = group attrs * (C / group attrs)) as HCeq
      by (apply Z_div_exact_full_2; [lia | done]).
    revert HCeq Hh0. generalize (C / group attrs) as h. intros h -> Hh0.
    by apply Z.div_mul. }
  exists (PermuteKernel_execute (mkKernel p1) src).
  rewrite !exec_own_batch by done. split; [done|]. f_equal.
  rewrite (planar_execute (inverse_configuration attrs) p2)
    by (try done; simpl; rewrite ?Hgs2; fold C; lia).
  rewrite (planar_execute attrs p1) by (try done; unfold groupSize_of; fold C; lia).
  rewrite Hgs2.
  change (spatial_cells (inverse_configuration attrs)) with (spatial_cells attrs).
  change (batch_dims (inverse_configuration attrs)) with (batch_dims attrs).
  change (group (inverse_configuration attrs)) with (groupSize_of attrs).
  change (dataSize (inverse_configuration attrs)) with (dataSize attrs).
  apply transposeBlocks_involutive.
  apply builds_closed in Hb1 as (-> & Ha & _).
  destruct (planar_lists attrs Hl) as (Hsrc & _ & _); [lia|].
  rewrite Hsrc, !product_app in Hlen.
  assert (0 <= product (spatial_cells attrs)) as HpS.
  { unfold spatial_cells. pose proof (spatialShapeSize_nonneg attrs).
    case_bool_decide; simpl; lia. }
  assert (0 <= product (batch_dims attrs)) as HpP
    by (by apply product_nonneg, batch_dims_nonneg).
  assert (0 <= dataSize attrs * product (spatial_cells attrs))
    by (by apply Z.mul_nonneg_nonneg).
  apply Nat2Z.inj. rewrite Hlen.
  repeat first [rewrite Nat2Z.inj_mul | rewrite Z2Nat.id by (try done; lia)].
  change (product [group attrs; groupSize_of attrs])
    with (group attrs * (groupSize_of attrs * 1)).
  ring.
Qed.

Lemma shuffle_round_trip_witness :
  let attrs := mkAttrs ncsp 4 1 2 3 1 [2; 6; 1; 2] [2; 6; 1; 2] in
  let p1 := mkParams [2; 3; 2; 2] [2; 2; 3; 2] [0; 1; 2; 3] [0; 1; 2; 3] [0; 2; 1; 3] 1 in
  let p2 := mkParams [2; 2; 3; 2] [2; 3; 2; 2] [0; 1; 2; 3] [0; 1; 2; 3] [0; 2; 1; 3] 1 in
  let src := [x00; x01; x02; x03; x04; x05; x06; x07; x08; x09; x0a; x0b;
              x0c; x0d; x0e; x0f; x10; x11; x12; x13; x14; x15; x16; x17] in
  exists mid,
    exec (mkExecutor (Some (mkKernel p1))) src (-1) = Ok mid
    /\ exec (mkExecutor (Some (mkKernel p2))) mid 2 = Ok src.
Proof.
  intros attrs p1 p2 src.
  apply (shuffle_round_trip attrs p1 p2 src (-1) 2).
  - reflexivity.
  - vm_compute; reflexivity.
  - vm_compute; reflexivity.
  - simpl; lia.
  - reflexivity.
  - simpl. repeat (constructor; [lia|]). constructor.
  - simpl; lia.
  - reflexivity.
  - left; lia.
  - right; reflexivity.
Defined.

(** ** The cache key *)

(** X1: [operator==] on attribute bundles is structural equality. *)
Lemma attrs_equal_structural (a b : ShuffleChannelsAttributes) :
  attrs_equal a b = true <-> a = b.
Proof.
  unfold attrs_equal. split.
  - intros H. repeat (apply andb_prop in H as [H ?]).
    repeat match goal with
           | H : bool_decide _ = true |- _ => apply bool_decide_eq_true in H
           end.
    destruct a, b; simpl in *. congruence.
  - intros ->. by rewrite !bool_decide_eq_true_2.
Qed.

(** ** The node *)

Lemma node_attrs_axis (attrs0 : ShuffleChannelsAttributes) (g ax rank : Z) :
  axis (node_attrs attrs0 g ax rank) = (if decide (ax < 0) then ax + rank else ax)
  /\ group (node_attrs attrs0 g ax rank) = g `mod` size_t_modulus
  /\ dataRank (node_attrs attrs0 g ax rank) = rank.
Proof. unfold node_attrs; simpl. by case_decide. Qed.

Lemma node_attrs_axis_mod (attrs0 : ShuffleChannelsAttributes) (g ax rank : Z) :
  - rank <= ax < rank ->
  axis (node_attrs attrs0 g ax rank) = ax `mod` rank
  /\ 0 <= axis (node_attrs attrs0 g ax rank) < rank.
Proof.
  intros Hax. destruct (node_attrs_axis attrs0 g ax rank) as (-> & _).
  case_decide.
  - rewrite <- (Z_mod_plus_full ax 1 rank), Z.mul_1_l.
    rewrite Z.mod_small by lia. lia.
  - rewrite Z.mod_small by lia. lia.
Qed.

Lemma constructor_Ok_attrs (name : string) (attrs0 : ShuffleChannelsAttributes)
    (g ax : Z) (inputShapes outputShapes : list Z) (node : MKLDNNShuffleChannelsNode) :
  MKLDNNShuffleChannelsNode_new name attrs0 (ShuffleChannels_v0 g ax)
    inputShapes outputShapes = Ok node ->
  exists rank, inputShapes = [rank]
    /\ node = mkNode (node_attrs attrs0 g ax rank)
                (node_supportDynamicBatch (node_attrs attrs0 g ax rank)) None.
Proof.
  unfold MKLDNNShuffleChannelsNode_new, THROW_SHCH_ERROR. simpl.
  repeat case_bool_decide; simpl; try done.
  destruct inputShapes as [|rank [|]]; try done. simpl. intros [= <-]. eauto.
Qed.

(** X2: the constructor has three outcomes and no other.  It completes
    exactly on a ShuffleChannels operation with one input and one output
    edge; on any other operation it throws the message left by
    [isSupportedOperation]; on a ShuffleChannels operation with another
    number of edges it throws the edge-count error. *)
Theorem constructor_accepts (name : string) (attrs0 : ShuffleChannelsAttributes)
    (op : Op) (inputShapes outputShapes : list Z) :
  ((exists node, MKLDNNShuffleChannelsNode_new name attrs0 op inputShapes outputShapes
                 = Ok node)
   /\ (exists g ax, op = ShuffleChannels_v0 g ax)
   /\ length inputShapes = 1%nat /\ length outputShapes = 1%nat)
  \/ (MKLDNNShuffleChannelsNode_new name attrs0 op inputShapes outputShapes
      = Throws "Only opset1 ShuffleChannels operation is supported"
      /\ op = OtherOp)
  \/ (MKLDNNShuffleChannelsNode_new name attrs0 op inputShapes outputShapes
      = THROW_SHCH_ERROR name "has incorrect number of input/output edges."
      /\ (exists g ax, op = ShuffleChannels_v0 g ax)
      /\ ~ (length inputShapes = 1%nat /\ length outputShapes = 1%nat)).
Proof.
  destruct op as [g ax|]; [|right; left; done].
  unfold MKLDNNShuffleChannelsNode_new. cbn [isSupportedOperation negb].
  destruct (decide (length inputShapes = 1%nat)) as [Hi|Hi];
    [destruct (decide (length outputShapes = 1%nat)) as [Ho|Ho]|].
  - left. rewrite !bool_decide_eq_true_2 by done. cbn [negb orb].
    destruct inputShapes as [|rank [|]]; try done. simpl. eauto 10.
  - right; right. rewrite bool_decide_eq_true_2, bool_decide_eq_false_2 by done.
    cbn [negb orb]. split; [done|]. split; [eauto|]. by intros [_ ?].
  - right; right. rewrite (bool_decide_eq_false_2 (length inputShapes = 1%nat)) by done.
    cbn [negb orb]. split; [done|]. split; [eauto|]. by intros [? _].
Qed.

(** X3: a node built from an axis in [-rank, rank), for a rank that fits an
    [int], holds the axis reduced modulo the rank, inside [0, rank); the group
    count is stored converted to [size_t], that is reduced modulo 2^64 (a
    group of [-1] becomes [2^64 - 1]), the rank as given, and no executor
    exists yet. *)
Theorem constructor_normalizes_axis (name : string) (attrs0 : ShuffleChannelsAttributes)
    (g ax rank outRank : Z) :
  - rank <= ax < rank ->
  rank < 2 ^ 31 ->
  exists node,
    MKLDNNShuffleChannelsNode_new name attrs0 (ShuffleChannels_v0 g ax) [rank] [outRank]
    = Ok node
    /\ axis (attrs node) = ax `mod` rank
    /\ 0 <= axis (attrs node) < rank
    /\ group (attrs node) = g `mod` 2 ^ 64
    /\ 0 <= group (attrs node) < 2 ^ 64
    /\ dataRank (attrs node) = rank
    /\ execPtr node = None.
Proof.
  intros Hax _. eexists. split; [reflexivity|]. cbn [attrs execPtr].
  destruct (node_attrs_axis_mod attrs0 g ax rank Hax) as [Hmod Hrange].
  destruct (node_attrs_axis attrs0 g ax rank) as (_ & Hg & Hr).
  rewrite Hg. unfold size_t_modulus.
  pose proof (Z.mod_pos_bound g (2 ^ 64) ltac:(lia)). done.
Qed.

Lemma constructor_normalizes_axis_witness :
  exists node,
    MKLDNNShuffleChannelsNode_new "shuffle"
      (mkAttrs ncsp 0 0 0 0 1 [] []) (ShuffleChannels_v0 (-1) (-3)) [4] [4] = Ok node
    /\ axis (attrs node) = (-3) `mod` 4
    /\ 0 <= axis (attrs node) < 4
    /\ group (attrs node) = (-1) `mod` 2 ^ 64
    /\ 0 <= group (attrs node) < 2 ^ 64
    /\ dataRank (attrs node) = 4
    /\ execPtr node = None.
Proof.
  apply (constructor_normalizes_axis "shuffle" (mkAttrs ncsp 0 0 0 0 1 [] []) (-1) (-3) 4 4);
    lia.
Defined.






(** ** What the executor constructor throws *)


















(** ** More on the built parameters *)

Lemma tab_fmap (s o : Z -> Z) (n : Z) : tab (fun k => s (o k)) n = s <$> tab o n.
Proof. unfold tab. by rewrite <- list_fmap_compose. Qed.

Lemma tab_id_fmap (s : Z -> Z) (n : Z) : tab s n = s <$> seqZ 0 n.
Proof. done. Qed.

Lemma product_Permutation (l l' : list Z) : l ≡ₚ l' -> product l = product l'.
Proof.
  induction 1 as [|x l l' _ IH|x y l|l l' l'' _ IH1 _ IH2]; simpl.
  - done.
  - fold (product l) (product l'). by rewrite IH.
  - fold (product l). ring.
  - congruence.
Qed.

(** X7: outside a blocked layout with the channel axis shuffled, the destination
    extents are a rearrangement of the source extents, so both blocks hold the
    same number of elements. *)
Theorem dst_block_is_rearranged_src_block (attrs : ShuffleChannelsAttributes)
    (p : PermuteParams) :
  builds attrs p ->
  ~ (isBlockedLayout (layoutType attrs) = true /\ axis attrs = channelDim) ->
  dst_block_dims p ≡ₚ src_block_dims p
  /\ product (dst_block_dims p) = product (src_block_dims p).
Proof.
  intros H Hne. apply builds_closed in H as (-> & Ha & _ & [Hd1 Hd2] & _).
  assert (dst_block_dims (closedParams attrs) ≡ₚ src_block_dims (closedParams attrs))
    as HP.
  { unfold closedParams, pstate; simpl. rewrite tab_fmap, (tab_id_fmap (closed_dims attrs)).
    apply fmap_Permutation.
    apply (tab_swap_Permutation _ _ (decomposedAxis attrs)); [done..|].
    intros k Hk. apply closed_order_swap; [lia | done..]. }
  split; [done | by apply product_Permutation].
Qed.

Lemma dst_block_is_rearranged_src_block_witness :
  let p := mkParams [1; 2; 3; 1; 5; 4] [1; 2; 1; 3; 5; 4] [0; 1; 2; 3; 4; 5]
                    [0; 1; 2; 3; 4; 5] [0; 1; 3; 2; 4; 5] 4 in
  dst_block_dims p ≡ₚ src_block_dims p
  /\ product (dst_block_dims p) = product (src_block_dims p).
Proof.
  intros p.
  apply (dst_block_is_rearranged_src_block
           (mkAttrs nspc 5 3 1 3 4 [1; 4; 2; 3; 5] [1; 2; 3; 5; 4]) p).
  - vm_compute; reflexivity.
  - intros [? _]. discriminate.
Defined.

(** X8: outside a blocked layout with the channel axis shuffled, the order is its
    own inverse: it maps [order[i]] back to [i]. *)
Theorem order_is_involution (attrs : ShuffleChannelsAttributes) (p : PermuteParams)
    (i : Z) :
  builds attrs p ->
  ~ (isBlockedLayout (layoutType attrs) = true /\ axis attrs = channelDim) ->
  0 <= i < reshapedRank attrs ->
  exists j, order p !! Z.to_nat i = Some j
    /\ 0 <= j < reshapedRank attrs
    /\ order p !! Z.to_nat j = Some i.
Proof.
  intros H Hne Hi. apply builds_closed in H as (-> & Ha & _ & [Hd1 Hd2] & Hr).
  exists (closed_order attrs i). specialize (Hr i Hi).
  unfold closedParams. rewrite order_pstate, !lookup_tab_Z by lia.
  split; [done|]. split; [done|]. f_equal.
  rewrite (closed_order_swap attrs i) in * by (try done; lia).
  rewrite closed_order_swap by (try done; lia).
  repeat case_decide; lia.
Qed.

Lemma order_is_involution_witness :
  let p := mkParams [1; 2; 2; 4] [1; 2; 2; 4] [0; 1; 2; 3] [0; 1; 2; 3] [0; 2; 1; 3] 4 in
  exists j, order p !! 1%nat = Some j /\ 0 <= j < 4 /\ order p !! Z.to_nat j = Some 1.
Proof.
  intros p.
  apply (order_is_involution (mkAttrs ncsp 4 1 2 2 4 [1; 4; 2; 2] [1; 4; 2; 2]) p 1).
  - vm_compute; reflexivity.
  - intros [? _]. discriminate.
  - vm_compute. by split.
Defined.

Lemma closed_prefix (attrs : ShuffleChannelsAttributes) (i : Z) :
  isChannelsLastLayout (layoutType attrs) = false
  \/ isBlockedLayout (layoutType attrs) = true ->
  (isBlockedLayout (layoutType attrs) = true -> axis attrs > channelDim) ->
  0 <= i < axis attrs ->
  closed_order attrs i = i
  /\ closed_dims attrs i
     = entry (if isBlockedLayout (layoutType attrs)
              then srcBlockedDims attrs else srcDims attrs) i.
Proof.
  unfold closed_order, closed_dims, channelDim.
  destruct (isBlockedLayout (layoutType attrs)),
           (isChannelsLastLayout (layoutType attrs)),
           (bool_decide (spatialRank attrs = 0));
    cbv beta iota zeta; intros Hl Hb Hi;
    try (specialize (Hb eq_refl)); try (destruct Hl; discriminate);
    unfold decomposed_order, decomposed_dims, copied_order, copied_dims, upd, zero;
    repeat case_decide; try lia; (split; [done | f_equal; lia]).
Qed.

(** X9: in the planar layout, and in a blocked layout with the shuffled axis
    behind the channel axis, every axis before the shuffled one keeps its
    position and its extent ([srcDims[i]], respectively [srcBlockedDims[i]]),
    in the source and in the destination block. *)
Theorem leading_axes_are_kept (attrs : ShuffleChannelsAttributes) (p : PermuteParams)
    (i : Z) :
  builds attrs p ->
  layoutType attrs = ncsp
  \/ (isBlockedLayout (layoutType attrs) = true /\ axis attrs > channelDim) ->
  0 <= i < axis attrs ->
  let x := entry (if isBlockedLayout (layoutType attrs)
                  then srcBlockedDims attrs else srcDims attrs) i in
  order p !! Z.to_nat i = Some i
  /\ src_block_dims p !! Z.to_nat i = Some x
  /\ dst_block_dims p !! Z.to_nat i = Some x.
Proof.
  intros H Hl Hi x. apply builds_closed in H as (-> & Ha & _ & _ & _).
  pose proof (reshapedRank_bounds attrs) as Hn.
  destruct (closed_prefix attrs i) as [Ho Hs]; [| |done|].
  { destruct Hl as [->|[-> _]]; auto. }
  { intros Hb. destruct Hl as [Hl|[_ ?]]; [|done]. by rewrite Hl in Hb. }
  unfold closedParams, pstate; simpl. rewrite !lookup_tab_Z by lia.
  by rewrite Ho, Hs.
Qed.

Lemma leading_axes_are_kept_witness :
  let p := mkParams [4; 2; 2; 2; 1; 8] [4; 2; 2; 1; 2; 8] [0; 1; 2; 3; 4; 5]
                    [0; 1; 2; 3; 4; 5] [0; 1; 2; 4; 3; 5] 4 in
  order p !! 2%nat = Some 2 /\ src_block_dims p !! 2%nat = Some 2
  /\ dst_block_dims p !! 2%nat = Some 2.
Proof.
  intros p.
  apply (leading_axes_are_kept
           (mkAttrs nCsp8c 4 3 0 2 4 [4; 16; 2; 2] [4; 2; 2; 2; 8]) p 2).
  - vm_compute; reflexivity.
  - right. split; [reflexivity | unfold channelDim; simpl; lia].
  - simpl; lia.
Defined.

(** X10: whenever the constructor completes on a blocked layout with the channel
    axis shuffled, the order is [1,0,2,0] and the fourth source extent is
    still the [0] it was initialised with, so the source block is empty. *)
Theorem blocked_channel_axis_plan (attrs : ShuffleChannelsAttributes)
    (p : PermuteParams) :
  builds attrs p ->
  isBlockedLayout (layoutType attrs) = true ->
  axis attrs = channelDim ->
  order p = [1; 0; 2; 0]
  /\ src_block_dims p !! 3%nat = Some 0
  /\ product (src_block_dims p) = 0.
Proof.
  intros H Hb Hax. apply builds_closed in H as (-> & _).
  unfold channelDim in Hax.
  pose proof (reshapedRank_blocked attrs Hb) as Hn. rewrite Hax in Hn.
  unfold closedParams, pstate; simpl. rewrite Hn.
  unfold closed_order, closed_dims, channelDim. rewrite Hb, Hax.
  rewrite !decide_False by lia.
  change (seqZ 0 (1 + 3)) with [0; 1; 2; 3]. unfold tab. simpl.
  fold (product []). simpl. split; [done|]. split; [done|].
  match goal with
  | |- context [?f (Z.of_nat 3 + 0)] => change (f (Z.of_nat 3 + 0)) with 0
  end.
  ring.
Qed.

Lemma blocked_channel_axis_plan_witness :
  let p := mkParams [2; 8; 64; 0] [8; 2; 64; 2] [0; 1; 2; 3] [0; 1; 2; 3] [1; 0; 2; 0] 4 in
  order p = [1; 0; 2; 0] /\ src_block_dims p !! 3%nat = Some 0
  /\ product (src_block_dims p) = 0.
Proof.
  intros p.
  apply (blocked_channel_axis_plan
           (mkAttrs nCsp8c 4 1 2 2 4 [1; 16; 2; 2] [1; 2; 2; 2; 8]) p);
    [vm_compute; reflexivity | reflexivity | reflexivity].
Defined.

(** X11: in the channels-last layout with the batch or the channel axis shuffled
    and no axis behind it, the constructor does not complete: it writes
    [params.order[2]], respectively [params.src_block_dims[3]], one past the
    end of a vector of [reshapedRank] entries. *)
Theorem channels_last_needs_trailing_axis (attrs : ShuffleChannelsAttributes) :
  layoutType attrs = nspc ->
  spatialRank attrs = 0 ->
  0 <= axis attrs <= channelDim ->
  axis attrs < Z.of_nat (length (srcDims attrs)) ->
  group attrs <> 0 ->
  ShuffleChannelsExecutor_new attrs = Undefined.
Proof.
  intros Hl Hsr Hax Hlen Hg. unfold channelDim in Hax.
  assert (buildParams attrs = Undefined) as Hb;
    [|by unfold ShuffleChannelsExecutor_new; rewrite Hb].
  unfold buildParams.
  assert (reshapedRank attrs = axis attrs + 2) as Hn.
  { unfold reshapedRank. rewrite Hl, Hsr. simpl. lia. }
  rewrite Hl.
  change (one_of nspc [nCsp16c; nCsp8c; nspc; ncsp]) with true.
  change (isBlockedLayout nspc) with false.
  change (isChannelsLastLayout nspc) with true.
  cbv beta iota zeta. simpl negb. cbv iota.
  unfold vec_resize. rewrite decide_True by lia. rewrite !bind_Ok_l.
  rewrite replicate_tab.
  rewrite (vec_get_in_range (srcDims attrs) (axis attrs)) by lia. rewrite bind_Ok_l.
  unfold size_t_div. rewrite decide_False by done. rewrite bind_Ok_l.
  rewrite (bool_decide_eq_true_2 (spatialRank attrs = 0)) by done. rewrite bind_Ok_l.
  set (n := reshapedRank attrs) in *.
  change (mkParams (tab _ n) _ _ _ _ _)
    with (pstate n zero zero zero (tab zero n) (tab zero n) (dataSize attrs)).
  unfold channelDim.
  destruct (decide (axis attrs = 1)); [|rewrite decide_False by lia]; run_step.
Qed.

Lemma channels_last_needs_trailing_axis_witness :
  ShuffleChannelsExecutor_new (mkAttrs nspc 2 1 0 2 4 [1; 4] [1; 4]) = Undefined.
Proof.
  apply (channels_last_needs_trailing_axis (mkAttrs nspc 2 1 0 2 4 [1; 4] [1; 4]));
    [reflexivity | reflexivity | unfold channelDim; simpl; lia | simpl; lia | simpl; lia].
Defined.

(** ** Extents and element counts *)

Lemma lookup_drop_Z (dims : list Z) (lo k : Z) :
  0 <= lo -> 0 <= k ->
  drop (Z.to_nat lo) dims !! Z.to_nat k = dims !! Z.to_nat (lo + k).
Proof. intros Hlo Hk. rewrite lookup_drop. f_equal. lia. Qed.

Lemma product_snoc (l : list Z) (x : Z) : product (l ++ [x]) = product l * x.
Proof. rewrite product_app. simpl. ring. Qed.

(** The loop [acc *= dims[i]] over [lo, hi) computes the product of the
    extents it visits, modulo 2^64. *)
Lemma mul_dims_product (dims : list Z) (lo hi acc : Z) :
  0 <= lo <= hi -> hi <= Z.of_nat (length dims) ->
  0 <= acc < size_t_modulus ->
  mul_dims dims lo hi acc
  = Ok ((acc * product (take (Z.to_nat (hi - lo)) (drop (Z.to_nat lo) dims)))
        `mod` size_t_modulus).
Proof.
  intros Hlo Hhi Hacc. unfold mul_dims.
  set (st := fun i : Z =>
               (acc * product (take (Z.to_nat (i - lo)) (drop (Z.to_nat lo) dims)))
               `mod` size_t_modulus).
  assert (acc = st lo) as Hstart.
  { unfold st. rewrite Z.sub_diag. simpl. rewrite Z.mul_1_r.
    symmetry. by apply Z.mod_small. }
  rewrite Hstart at 1.
  apply (for_loop_closed st); [lia|].
  intros i Hi. rewrite vec_get_in_range by lia. rewrite bind_Ok_l. f_equal.
  unfold st, size_t_mul.
  replace (Z.to_nat (i + 1 - lo)) with (S (Z.to_nat (i - lo))) by lia.
  rewrite (take_S_r _ _ (entry dims i)).
  - rewrite product_snoc, Z.mul_mod_idemp_l by done. f_equal. ring.
  - rewrite lookup_drop_Z by lia. replace (lo + (i - lo)) with i by lia.
    apply lookup_entry. lia.
Qed.

Lemma spatialShapeSize_product (attrs : ShuffleChannelsAttributes) :
  wellFormed attrs ->
  spatialShapeSize_of attrs
  = product (drop (Z.to_nat (axis attrs + 1)) (srcDims attrs)) `mod` size_t_modulus.
Proof.
  intros (_ & Hrank & Hax & Hsr & _). unfold spatialShapeSize_of.
  case_bool_decide as H0.
  - rewrite drop_ge by lia. done.
  - rewrite mul_dims_product by (unfold size_t_modulus; lia). simpl value.
    rewrite Z.mul_1_l. rewrite take_ge; [done|]. rewrite length_drop. lia.
Qed.

(** X12: in a planar plan with axes behind the shuffled one, these axes are folded
    into the single extent [src_block_dims[axis + 2]], the product of their
    extents reduced modulo 2^64. *)
Theorem planar_trailing_axes_folded (attrs : ShuffleChannelsAttributes)
    (p : PermuteParams) :
  wellFormed attrs -> builds attrs p ->
  layoutType attrs = ncsp -> spatialRank attrs <> 0 ->
  src_block_dims p !! Z.to_nat (axis attrs + 2)
  = Some (product (drop (Z.to_nat (axis attrs + 1)) (srcDims attrs))
          `mod` size_t_modulus)
  /\ order p !! Z.to_nat (axis attrs + 2) = Some (axis attrs + 2).
Proof.
  intros Hwf H Hl Hsr. rewrite <- (spatialShapeSize_product attrs Hwf).
  apply builds_closed in H as (-> & Ha & _).
  destruct (planar_layout_flags attrs Hl) as [Hb Hc].
  pose proof (reshapedRank_not_blocked attrs Hb) as Hn.
  rewrite bool_decide_eq_false_2 in Hn by done.
  unfold closedParams, pstate; simpl. rewrite !lookup_tab_Z by lia.
  unfold closed_dims, closed_order. rewrite Hb, Hc.
  rewrite bool_decide_eq_false_2 by done. cbv beta iota zeta.
  unfold upd. by rewrite !decide_True.
Qed.

Lemma planar_trailing_axes_folded_witness :
  let p := mkParams [1; 2; 2; 4] [1; 2; 2; 4] [0; 1; 2; 3] [0; 1; 2; 3] [0; 2; 1; 3] 4 in
  src_block_dims p !! 3%nat = Some (product [2; 2] `mod` size_t_modulus)
  /\ order p !! 3%nat = Some 3.
Proof.
  intros p.
  apply (planar_trailing_axes_folded (mkAttrs ncsp 4 1 2 2 4 [1; 4; 2; 2] [1; 4; 2; 2]) p).
  - unfold wellFormed, channelDim; simpl. repeat split; try done; lia.
  - vm_compute; reflexivity.
  - reflexivity.
  - simpl; lia.
Defined.

Lemma batch_dims_take (attrs : ShuffleChannelsAttributes) :
  0 <= axis attrs <= Z.of_nat (length (srcDims attrs)) ->
  batch_dims attrs = take (Z.to_nat (axis attrs)) (srcDims attrs).
Proof.
  intros Ha. unfold batch_dims. apply list_eq. intros i.
  destruct (decide (Z.of_nat i < axis attrs)) as [Hi|Hi].
  - rewrite lookup_tab by done. rewrite lookup_take_lt by lia.
    rewrite <- (lookup_entry (srcDims attrs) (Z.of_nat i)) by lia.
    f_equal. lia.
  - rewrite lookup_tab_ge by lia. symmetry. apply lookup_ge_None.
    rewrite length_take. lia.
Qed.

(** The number of elements of the source block of a planar plan: the leading
    extents, [group * (shape[axis] / group)] for the shuffled axis, and the
    folded trailing extent. *)
Lemma planar_source_block_size (attrs : ShuffleChannelsAttributes) :
  wellFormed attrs -> layoutType attrs = ncsp ->
  product (src_block_dims (closedParams attrs))
  = product (take (Z.to_nat (axis attrs)) (srcDims attrs))
    * (group attrs * (entry (srcDims attrs) (axis attrs) / group attrs))
    * (product (drop (Z.to_nat (axis attrs + 1)) (srcDims attrs)) `mod` size_t_modulus).
Proof.
  intros Hwf Hl. pose proof Hwf as (_ & Hrank & Hax & Hsr & _).
  destruct (planar_lists attrs Hl) as (-> & _); [lia|].
  rewrite !product_app, batch_dims_take by lia.
  rewrite <- (spatialShapeSize_product attrs Hwf).
  unfold spatial_cells, groupSize_of. case_bool_decide as H0; simpl; [|ring].
  unfold spatialShapeSize_of. rewrite bool_decide_eq_true_2 by done. ring.
Qed.

Lemma product_split (dims : list Z) (a : Z) :
  0 <= a < Z.of_nat (length dims) ->
  product dims
  = product (take (Z.to_nat a) dims) * entry dims a
    * product (drop (Z.to_nat (a + 1)) dims).
Proof.
  intros Ha.
  rewrite <- (take_drop_middle dims (Z.to_nat a) (entry dims a)) at 1
    by (by apply lookup_entry).
  rewrite product_app. simpl. fold (product (drop (S (Z.to_nat a)) dims)).
  replace (Z.to_nat (a + 1)) with (S (Z.to_nat a)) by lia. ring.
Qed.

Lemma product_pos (l : list Z) : Forall (fun d => 0 < d) l -> 0 < product l.
Proof.
  induction 1 as [|d l Hd _ IH]; simpl; [lia|]. by apply Z.mul_pos_pos.
Qed.

(** X13: in the planar layout, when the group count divides the extent of the
    shuffled axis and the trailing extents multiply to less than 2^64, the
    source and the destination block of the plan hold exactly the elements of
    the tensor. *)
Theorem planar_plan_covers_tensor (attrs : ShuffleChannelsAttributes)
    (p : PermuteParams) :
  wellFormed attrs -> builds attrs p -> layoutType attrs = ncsp ->
  Forall (fun d => 0 <= d) (srcDims attrs) ->
  entry (srcDims attrs) (axis attrs) `mod` group attrs = 0 ->
  product (drop (Z.to_nat (axis attrs + 1)) (srcDims attrs)) < size_t_modulus ->
  product (src_block_dims p) = product (srcDims attrs)
  /\ product (dst_block_dims p) = product (srcDims attrs).
Proof.
  intros Hwf H Hl Hdims Hdiv Hsmall.
  pose proof Hwf as (_ & Hrank & Hax & _ & Hg & _).
  assert (product (dst_block_dims p) = product (src_block_dims p)) as ->.
  { pose proof H as Hb. apply builds_closed in Hb as (-> & Ha & _ & [Hd1 Hd2] & _).
    apply product_Permutation.
    unfold closedParams, pstate; simpl.
    rewrite tab_fmap, (tab_id_fmap (closed_dims attrs)).
    apply fmap_Permutation.
    apply (tab_swap_Permutation _ _ (decomposedAxis attrs)); [done..|].
    intros k Hk. apply closed_order_swap; [lia | done | done | | done].
    intros [Hb _]. rewrite Hl in Hb. discriminate. }
  apply builds_closed in H as (-> & _).
  rewrite planar_source_block_size by done.
  rewrite (product_split (srcDims attrs) (axis attrs)) by lia.
  rewrite Z.mod_small.
  - rewrite <- (Z_div_exact_full_2 _ (group attrs)) by (try done; lia). done.
  - split; [|done]. apply product_nonneg. by apply Forall_drop.
Qed.

Lemma planar_plan_covers_tensor_witness :
  let p := mkParams [2; 3; 2; 2] [2; 2; 3; 2] [0; 1; 2; 3] [0; 1; 2; 3] [0; 2; 1; 3] 1 in
  product (src_block_dims p) = product [2; 6; 1; 2]
  /\ product (dst_block_dims p) = product [2; 6; 1; 2].
Proof.
  intros p.
  apply (planar_plan_covers_tensor (mkAttrs ncsp 4 1 2 3 1 [2; 6; 1; 2] [2; 6; 1; 2]) p).
  - unfold wellFormed, channelDim; simpl. repeat split; try done; lia.
  - vm_compute; reflexivity.
  - reflexivity.
  - simpl. repeat (constructor; [lia|]). constructor.
  - reflexivity.
  - vm_compute; reflexivity.
Defined.

(** X14: in the planar layout, when the group count does not divide the extent of
    the shuffled axis (all extents positive, no overflow), the source block of
    the plan holds fewer elements than the tensor: the last
    [shape[axis] mod group] slices of the shuffled axis are left out. *)
Theorem planar_plan_drops_remainder (attrs : ShuffleChannelsAttributes)
    (p : PermuteParams) :
  wellFormed attrs -> builds attrs p -> layoutType attrs = ncsp ->
  Forall (fun d => 0 < d) (srcDims attrs) ->
  entry (srcDims attrs) (axis attrs) `mod` group attrs <> 0 ->
  product (drop (Z.to_nat (axis attrs + 1)) (srcDims attrs)) < size_t_modulus ->
  product (srcDims attrs) - product (src_block_dims p)
  = product (take (Z.to_nat (axis attrs)) (srcDims attrs))
    * (entry (srcDims attrs) (axis attrs) `mod` group attrs)
    * product (drop (Z.to_nat (axis attrs + 1)) (srcDims attrs))
  /\ product (src_block_dims p) < product (srcDims attrs).
Proof.
  intros Hwf H Hl Hdims Hdiv Hsmall.
  pose proof Hwf as (_ & Hrank & Hax & _ & Hg & _).
  apply builds_closed in H as (-> & _).
  rewrite planar_source_block_size by done.
  rewrite (product_split (srcDims attrs) (axis attrs)) by lia.
  set (A := product (take (Z.to_nat (axis attrs)) (srcDims attrs))).
  set (B := product (drop (Z.to_nat (axis attrs + 1)) (srcDims attrs))) in *.
  set (C := entry (srcDims attrs) (axis attrs)) in *.
  assert (0 < A) as HA by (apply product_pos; by apply Forall_take).
  assert (0 < B) as HB by (apply product_pos; by apply Forall_drop).
  rewrite (Z.mod_small B) by lia.
  pose proof (Z.div_mod C (group attrs) ltac:(lia)) as HC.
  pose proof (Z.mod_pos_bound C (group attrs) Hg) as Hm.
  assert (A * C * B - A * (group attrs * (C `div` group attrs)) * B
          = A * (C `mod` group attrs) * B) as Heq.
  { rewrite HC at 1. ring. }
  split; [done|].
  assert (0 < A * (C `mod` group attrs) * B).
  { apply Z.mul_pos_pos; [apply Z.mul_pos_pos|]; lia. }
  lia.
Qed.

Lemma planar_plan_drops_remainder_witness :
  let p := mkParams [1; 2; 2; 4] [1; 2; 2; 4] [0; 1; 2; 3] [0; 1; 2; 3] [0; 2; 1; 3] 4 in
  product [1; 5; 2; 2] - product (src_block_dims p)
  = product [1] * (5 `mod` 2) * product [2; 2]
  /\ product (src_block_dims p) < product [1; 5; 2; 2].
Proof.
  intros p.
  apply (planar_plan_drops_remainder (mkAttrs ncsp 4 1 2 2 4 [1; 5; 2; 2] [1; 5; 2; 2]) p).
  - unfold wellFormed, channelDim; simpl. repeat split; try done; lia.
  - vm_compute; reflexivity.
  - reflexivity.
  - simpl. repeat (constructor; [lia|]). constructor.
  - vm_compute. discriminate.
  - vm_compute; reflexivity.
Defined.

(** ** When the constructor completes *)

(** X15: the constructor runs to completion exactly on the attributes described by
    [accepted]; on all others it throws or runs into an out-of-range access or
    a division by zero.  The extent of the shuffled axis need not be a
    multiple of the group count, and the shape may hold zeros. *)
Theorem constructor_completes_iff (attrs : ShuffleChannelsAttributes) :
  (exists e, ShuffleChannelsExecutor_new attrs = Ok e) <-> accepted attrs.
Proof.
  unfold ShuffleChannelsExecutor_new. split.
  - intros [e H]. apply bind_Ok in H as (p & Hp & _). by eapply buildParams_Ok_accepted.
  - intros H. rewrite buildParams_accepted by done. by eexists.
Qed.

(** ** From the node to the executor *)

Lemma createPrimitive_layout_supported (m : MemoryDesc) (a : ShuffleChannelsAttributes) :
  one_of (layoutType (createPrimitive_attrs m a)) [nCsp16c; nCsp8c; nspc; ncsp] = true.
Proof.
  unfold createPrimitive_attrs; simpl.
  by destruct (hasLayoutType m nCsp16c), (hasLayoutType m nCsp8c), (hasLayoutType m nspc).
Qed.

Lemma prepared_attrs (m : MemoryDesc) (a : ShuffleChannelsAttributes) :
  let a' := prepareParams_attrs m (createPrimitive_attrs m a) in
  axis a' = axis a /\ group a' = group a /\ dataRank a' = dataRank a
  /\ spatialRank a' = dataRank a - axis a - 1
  /\ srcDims a' = staticDims m /\ srcBlockedDims a' = blockDims m
  /\ dataSize a' = precisionSize m
  /\ layoutType a' = layoutType (createPrimitive_attrs m a).
Proof. done. Qed.



(** X17: the attributes a node sets up are well-formed.  For a node built from
    a group count in [1, 2^63) and an axis in [-rank, rank), the rank fitting
    an [int], the attributes as the assignments of [createPrimitive] and
    [prepareParams] leave them, for a source memory whose static dims have
    length [rank] (with more than [rank] block dims when the layout chosen is
    blocked, and an axis behind the shuffled one when it is channels-last and
    the shuffled axis is 0 or 1), satisfy [wellFormed], hold the axis reduced
    modulo the rank and the group count as given, and the executor
    constructor completes on them. *)
Theorem node_attributes_are_well_formed (name : string)
    (attrs0 : ShuffleChannelsAttributes) (g ax rank outRank : Z)
    (node : MKLDNNShuffleChannelsNode) (m : MemoryDesc) :
  MKLDNNShuffleChannelsNode_new name attrs0 (ShuffleChannels_v0 g ax) [rank] [outRank]
  = Ok node ->
  - rank <= ax < rank ->
  rank < 2 ^ 31 ->
  0 < g < 2 ^ 63 ->
  Z.of_nat (length (staticDims m)) = rank ->
  (isBlockedLayout (layoutType (createPrimitive_attrs m (attrs node))) = true ->
   rank < Z.of_nat (length (blockDims m))) ->
  (isChannelsLastLayout (layoutType (createPrimitive_attrs m (attrs node))) = true ->
   ax `mod` rank <= channelDim -> ax `mod` rank < rank - 1) ->
  let a := prepareParams_attrs m (createPrimitive_attrs m (attrs node)) in
  wellFormed a
  /\ axis a = ax `mod` rank
  /\ group a = g
  /\ exists p, builds a p.
Proof.
  intros H Hax _ Hg Hlen Hblk Hcl.
  apply constructor_Ok_attrs in H as (rank' & [= <-] & ->).
  cbn [attrs] in *. cbv zeta.
  set (a0 := node_attrs attrs0 g ax rank) in *.
  set (a := prepareParams_attrs m (createPrimitive_attrs m a0)).
  destruct (node_attrs_axis attrs0 g ax rank) as (Ha & Hgr & Hr). fold a0 in Ha, Hgr, Hr.
  rewrite Z.mod_small in Hgr by (unfold size_t_modulus; lia).
  destruct (node_attrs_axis_mod attrs0 g ax rank Hax) as [Hmod Hrange].
  fold a0 in Hmod, Hrange.
  destruct (prepared_attrs m a0) as (E1 & E2 & E3 & E4 & E5 & E6 & _ & E8).
  fold a in E1, E2, E3, E4, E5, E6, E8.
  assert (wellFormed a) as Hwf.
  { unfold wellFormed.
    rewrite E1, E2, E3, E4, E5, E6, E8, Hr, Hgr.
    split; [apply createPrimitive_layout_supported|].
    split; [lia|]. split; [done|]. split; [done|]. split; [lia|].
    split; [done|]. intros Hc Hle. rewrite Hmod in Hle. specialize (Hcl Hc Hle). lia. }
  split; [done|]. split; [by rewrite E1|]. split; [by rewrite E2|].
  exists (closedParams a). by apply wellFormed_builds.
Qed.

Lemma node_attributes_are_well_formed_witness :
  let m := mkMemoryDesc 4 (fun _ => false) [1; 4; 2; 2] [1; 4; 2; 2] in
  let a := prepareParams_attrs m (createPrimitive_attrs m (mkAttrs ncsp 4 1 0 2 1 [] [])) in
  wellFormed a /\ axis a = (-3) `mod` 4 /\ group a = 2 /\ exists p, builds a p.
Proof.
  intros m.
  apply (node_attributes_are_well_formed "shuffle" (mkAttrs ncsp 0 0 0 0 1 [] []) 2 (-3) 4 4
           (mkNode (mkAttrs ncsp 4 1 0 2 1 [] []) true None) m).
  - vm_compute; reflexivity.
  - lia.
  - lia.
  - lia.
  - reflexivity.
  - vm_compute; discriminate.
  - vm_compute; discriminate.
Defined.

Lemma prepareParams_Ok (m : MemoryDesc) (node node' : MKLDNNShuffleChannelsNode) :
  prepareParams m node = Ok node' ->
  exists p, execPtr node' = Some (mkExecutor (Some (mkKernel p)))
    /\ builds (attrs node') p
    /\ supportDynamicBatch node' = supportDynamicBatch node.
Proof.
  unfold prepareParams. intros H. apply bind_Ok in H as (e & He & [= <-]).
  pose proof He as Hb. unfold ShuffleChannelsExecutor_new in Hb.
  apply bind_Ok in Hb as (p & Hp & [= <-]). exists p. done.
Qed.

(** X18: after a successful [prepareParams], [execute] completes: neither of the
    two exceptions on the way (no executor, no compiled kernel) can occur.
    The one thing needed is an axis-0 extent to read when the batch is taken
    from a dynamic shape. *)
Theorem execute_after_prepare_completes (name : string) (m : MemoryDesc)
    (node node' : MKLDNNShuffleChannelsNode) (isDynamicNode : bool)
    (dims : list Z) (batchToProcess : Z) (srcData : list byte) :
  prepareParams m node = Ok node' ->
  (supportDynamicBatch node = true -> isDynamicNode = true -> dims <> []) ->
  exists out, execute name node' isDynamicNode dims batchToProcess srcData = Ok out.
Proof.
  intros H Hdims. apply prepareParams_Ok in H as (p & He & _ & Hs).
  unfold execute. rewrite He, Hs.
  assert (exists MB, (if supportDynamicBatch node
                      then if isDynamicNode
                           then d ← vec_get dims 0; Ok (int_of_size_t d)
                           else Ok batchToProcess
                      else Ok (-1)) = Ok MB) as [MB ->].
  { destruct (supportDynamicBatch node); [|by eexists].
    destruct isDynamicNode; [|by eexists].
    destruct dims as [|d dims]; [by destruct Hdims|]. by eexists. }
  simpl. unfold exec; simpl. case_decide; by eexists.
Qed.

Lemma execute_after_prepare_completes_witness :
  exists out,
    execute "shuffle"
      (mkNode (mkAttrs ncsp 2 1 0 2 1 [1; 4] [1; 4]) true
         (Some (mkExecutor (Some (mkKernel
            (mkParams [1; 2; 2] [1; 2; 2] [0; 1; 2] [0; 1; 2] [0; 2; 1] 1))))))
      true [1; 4] 0 ["a"; "b"; "c"; "d"]%byte = Ok out.
Proof.
  apply (execute_after_prepare_completes "shuffle"
           (mkMemoryDesc 1 (fun _ => false) [1; 4] [1; 4])
           (mkNode (mkAttrs ncsp 2 1 0 2 1 [] []) true None)).
  - vm_compute; reflexivity.
  - discriminate.
Defined.


